(** * cipher-gate: folder tree, sharing permissions and file lifecycle

    A shallow embedding of the folder controller, the file controller and
    the two Mongoose models (folder and file), with the database as an
    explicit store that every operation threads.

    Conventions of the embedding:
    - an ObjectId is a [positive]; [a.toString() === b.toString()] on ids is
      equality of the two numbers;
    - a collection is a finite map from [_id] to document;
    - [new Date()] is the time stamp carried by the request;
    - a call that can raise returns [Throw st], [st] being the database at
      the moment of the raise; a loop or recursion of the source carries a
      fuel argument and returns [None] when the fuel runs out;
    - the answers of the outside services (object storage, risk scoring)
      are part of the request;
    - a string is a sequence of code units below 256, and [s.length] is its
      length; a request carries the fields that appear as arguments, and
      the optional fields of a body that are not among them (a description,
      metadata, a colour, an icon) are absent;
    - [doc.save()] validates the document, runs the pre-save hook the
      schema registers and then stores the document, a field counting as
      modified when its value differs from the loaded one; a write to the
      database succeeds unless the source itself makes it raise. The
      documents the database holds are valid; of the validators, the one
      that a request of the modelled form can fail is modelled where such a
      value is saved: the [maxlength] of a folder's name.

    The models as the controllers see them. [Folder] in the controllers is
    the folder model (part_000 l.425 exports it). [File] and [User] are
    not the models: the controllers require the model files whole
    ([const File = require('../models/file.model')], file.controller.js
    l.4-5, folder.controller.part2.js l.2-3, part_005 l.2-3 and l.516-517),
    and file.model.js (l.485) and user.model.js (l.315) export an object
    that holds the model beside the constants. That object has no
    [findOne], [findById], [deleteMany], [updateMany] or [aggregate] and is
    no constructor, so each such call in a controller raises a TypeError
    before it reaches the database, and the [catch] around it takes over;
    what comes after the call in the source never runs and is not part of
    the definitions. The models' own methods and hooks, the auth
    middleware (which destructures [User]) and the upload path of the
    scanner (whose model file exports the model) are not affected.

    The [updatedAt]/[lastModified]/[createdAt] stamps that every save
    refreshes are left out of the documents. A folder keeps a [deletedAt]
    component that no operation writes: it is no path of the folder
    schema. *)

From Stdlib Require Import ZArith Lia.
From stdpp Require Import gmap strings list fin_maps.

Open Scope string_scope.
Open Scope list_scope.
Open Scope nat_scope.

Abbreviation Id := positive.

(** ** Permission levels (file.model.js, [PERMISSIONS]) *)

Module FILE_PERMISSIONS.
Definition VIEW : string := "view".
Definition EDIT : string := "edit".
Definition MANAGE : string := "manage".
(** [Object.values(PERMISSIONS)], in insertion order. *)
Definition values : list string := [VIEW; EDIT; MANAGE].
End FILE_PERMISSIONS.

(** [Array.prototype.indexOf]: position of the first occurrence, [-1] when
    the element is absent. *)
Fixpoint indexOf_from (i : Z) (x : string) (l : list string) : Z :=
  match l with
  | [] => (-1)%Z
  | y :: l' => if decide (y = x) then i else indexOf_from (i + 1)%Z x l'
  end.

Definition indexOf (l : list string) (x : string) : Z := indexOf_from 0%Z x l.

(** [Array.prototype.includes] on strings. *)
Definition includes (l : list string) (x : string) : bool :=
  bool_decide (x ∈ l).

(** [Array.prototype.findIndex]. *)
Fixpoint findIndex {A} (p : A → bool) (l : list A) : option nat :=
  match l with
  | [] => None
  | x :: l' => if p x then Some 0 else S <$> findIndex p l'
  end.

(** ** Documents *)

Module SharedGrant.
Record t := mk {
  user : Id;
  permission : string;
  sharedAt : nat;
  sharedBy : Id;
  message : option string
}.
End SharedGrant.

Module Folder.
Record t := mk {
  name : string;
  parent : option Id;
  path : string;
  owner : Id;
  sharedWith : list SharedGrant.t;
  isTrash : bool;
  deletedAt : option nat;
  folderCount : Z
}.
Definition set_path (p : string) (f : t) : t :=
  mk (name f) (parent f) p (owner f) (sharedWith f) (isTrash f) (deletedAt f)
     (folderCount f).
Definition set_parent (p : option Id) (f : t) : t :=
  mk (name f) p (path f) (owner f) (sharedWith f) (isTrash f) (deletedAt f)
     (folderCount f).
Definition set_sharedWith (l : list SharedGrant.t) (f : t) : t :=
  mk (name f) (parent f) (path f) (owner f) l (isTrash f) (deletedAt f)
     (folderCount f).
Definition set_folderCount (n : Z) (f : t) : t :=
  mk (name f) (parent f) (path f) (owner f) (sharedWith f) (isTrash f)
     (deletedAt f) n.
Definition set_isTrash (b : bool) (f : t) : t :=
  mk (name f) (parent f) (path f) (owner f) (sharedWith f) b (deletedAt f)
     (folderCount f).
End Folder.

(** File status (file.model.js, [STATUS]). *)
Inductive FILE_STATUS :=
| ACTIVE | QUARANTINED | DELETED | UPLOADING | PROCESSING.

Module Storage.
Record t := mk { key : string; url : string; etag : string }.
End Storage.

Module Version.
Record t := mk {
  version : Z;
  storageKey : string;
  size : Z;
  mimeType : string;
  uploadedAt : nat;
  uploadedBy : Id
}.
End Version.

Module Risk.
Record t := mk {
  riskScore : Z;
  riskLevel : string;
  isMalicious : bool;
  requiresReview : bool
}.
End Risk.

Module Download.
Record t := mk { user : Id; downloadedAt : nat }.
End Download.

Module File.
Record t := mk {
  name : string;
  mimeType : string;
  size : Z;
  owner : Id;
  folder : option Id;
  status : FILE_STATUS;
  deletedAt : option nat;
  storage : option Storage.t;
  sharedWith : list SharedGrant.t;
  currentVersion : Z;
  versions : list Version.t;
  downloads : list Download.t;
  riskAssessment : option Risk.t;
  quarantineReason : option string;
  restoreReason : option string
}.
Definition set_status (s : FILE_STATUS) (f : t) : t :=
  mk (name f) (mimeType f) (size f) (owner f) (folder f) s
     (deletedAt f) (storage f) (sharedWith f) (currentVersion f) (versions f)
     (downloads f) (riskAssessment f) (quarantineReason f) (restoreReason f).
Definition set_sharedWith (l : list SharedGrant.t) (f : t) : t :=
  mk (name f) (mimeType f) (size f) (owner f) (folder f) (status f)
     (deletedAt f) (storage f) l (currentVersion f) (versions f)
     (downloads f) (riskAssessment f) (quarantineReason f) (restoreReason f).
Definition set_versioning (v : Z) (l : list Version.t) (f : t) : t :=
  mk (name f) (mimeType f) (size f) (owner f) (folder f) (status f)
     (deletedAt f) (storage f) (sharedWith f) v l
     (downloads f) (riskAssessment f) (quarantineReason f) (restoreReason f).
End File.

Module User.
Record t := mk { storageUsed : Z; storageQuota : Z }.
End User.

#[global] Instance SharedGrant_eq_dec : EqDecision SharedGrant.t.
Proof. solve_decision. Defined.
#[global] Instance Folder_eq_dec : EqDecision Folder.t.
Proof. solve_decision. Defined.
#[global] Instance FILE_STATUS_eq_dec : EqDecision FILE_STATUS.
Proof. solve_decision. Defined.
#[global] Instance Storage_eq_dec : EqDecision Storage.t.
Proof. solve_decision. Defined.
#[global] Instance Version_eq_dec : EqDecision Version.t.
Proof. solve_decision. Defined.

(** ** The database *)

Record Store := mkStore {
  folders : gmap Id Folder.t;
  files : gmap Id File.t;
  users : gmap Id User.t
}.

Definition with_folders (m : gmap Id Folder.t) (st : Store) : Store :=
  mkStore m (files st) (users st).
Definition with_files (m : gmap Id File.t) (st : Store) : Store :=
  mkStore (folders st) m (users st).

(** What a controller sends back: [res.status(c).json({ message })],
    [res.redirect(url)] or [res.download(path, name)]. The message is empty when the body carries none;
    a part of a message that is computed from the request, and the quote
    marks inside one, are dropped. *)
Inductive Response :=
| Json (status : nat) (message : string)
| Redirect (url : string)
| SendFile (name : string).

(** Outcome of a call that may raise. *)
Inductive Exn (A : Type) :=
| Ok (a : A)
| Throw (st : Store).
Arguments Ok {A} a.
Arguments Throw {A} st.

(** ** Access control (folder model l.226-247, file model l.321-342)

    The two [hasPermission] methods have the same body; it reads the
    document's [owner] and [sharedWith] only. *)

Definition hasPermission (owner : Id) (sharedWith : list SharedGrant.t)
    (userId : Id) (requiredPermission : string) : bool :=
  if decide (owner = userId) then true
  else
    match List.find (λ share, bool_decide (SharedGrant.user share = userId))
                    sharedWith with
    | None => false
    | Some sharedAccess =>
      let permissionLevels := FILE_PERMISSIONS.values in
      let userLevel :=
        indexOf permissionLevels (SharedGrant.permission sharedAccess) in
      let requiredLevel := indexOf permissionLevels requiredPermission in
      bool_decide (userLevel >= requiredLevel)%Z
    end.

Definition Folder_hasPermission (this : Folder.t) : Id → string → bool :=
  hasPermission (Folder.owner this) (Folder.sharedWith this).

Definition File_hasPermission (this : File.t) : Id → string → bool :=
  hasPermission (File.owner this) (File.sharedWith this).

(** ** Folder collection primitives *)

(** [Folder.find({ parent: parentId })]: the documents are loaded once, the
    caller then iterates over that snapshot. *)
Definition Folder_find_by_parent (st : Store) (parentId : Id)
    : list (Id * Folder.t) :=
  filter (λ d, Folder.parent d.2 = Some parentId) (map_to_list (folders st)).

(** [Folder.updateOne({ _id: id }, { $inc: { folderCount: n } })]; matches
    nothing, and changes nothing, when [id] is absent. *)
Definition Folder_inc_folderCount (st : Store) (id : Id) (n : Z) : Store :=
  with_folders
    (alter (λ f, Folder.set_folderCount (Folder.folderCount f + n)%Z f) id
           (folders st)) st.

(** [Folder.findByIdAndDelete(id)]: the collection without the document
    of that id. *)
Definition Folder_findByIdAndDelete (st : Store) (id : Id) : Store :=
  with_folders (delete id (folders st)) st.

(** A save of an existing document writes the modified paths only: a field
    the caller did not change keeps the value the database holds. *)
Definition pick {A} `{EqDecision A} (orig this stored : A) : A :=
  if decide (orig = this) then stored else this.

Definition Folder_merge (orig this stored : Folder.t) : Folder.t :=
  Folder.mk
    (pick (Folder.name orig) (Folder.name this) (Folder.name stored))
    (pick (Folder.parent orig) (Folder.parent this) (Folder.parent stored))
    (pick (Folder.path orig) (Folder.path this) (Folder.path stored))
    (pick (Folder.owner orig) (Folder.owner this) (Folder.owner stored))
    (pick (Folder.sharedWith orig) (Folder.sharedWith this)
          (Folder.sharedWith stored))
    (pick (Folder.isTrash orig) (Folder.isTrash this) (Folder.isTrash stored))
    (pick (Folder.deletedAt orig) (Folder.deletedAt this)
          (Folder.deletedAt stored))
    (pick (Folder.folderCount orig) (Folder.folderCount this)
          (Folder.folderCount stored)).

(** ** Folder model: virtual [fullPath] and the pre-save hook (l.122-223) *)

Definition fullPath (this : Folder.t) : string :=
  match Folder.parent this with
  | None => "/" +:+ Folder.name this
  | Some _ => Folder.path this +:+ Folder.name this +:+ "/"
  end.

(** The model file's own [updateDescendantPaths] (l.209-223), which is not
    the controller's helper of the same name. Its body starts with
    [this.constructor.find(...)]: [receiver] is the document bound to [this]
    at the call, [None] when the function is called as a plain function.
    Without a document, [this.constructor.find] is not a function and the
    call raises before it reads or writes anything. With one, each child is
    written and the function then calls itself, again as a plain function. *)
Definition schema_updateDescendantPaths (receiver : option Id) (st : Store)
    (parentId : Id) (parentPath : string) : Exn Store :=
  match receiver with
  | None => Throw st
  | Some _ =>
    match Folder_find_by_parent st parentId with
    | [] => Ok st
    | child :: _ =>
      let newPath := parentPath +:+ Folder.name child.2 +:+ "/" in
      Throw (with_folders
               (alter (Folder.set_path newPath) child.1 (folders st)) st)
    end
  end.

(** [folderSchema.pre('save')]. [orig] is the document as it was loaded,
    [this] the document being saved; [isModified('parent')] compares the
    two. The hook may rewrite [this.path] and may touch the database. The
    call [updateDescendantPaths(this._id, this.path)] at l.162 is a plain
    call, so it carries no receiver. [this._originalParent] is assigned
    nowhere, hence the count update of l.165-175 never runs. *)
Definition Folder_pre_save (st : Store) (isNew : bool) (id : Id)
    (orig this : Folder.t) : Exn (Store * Folder.t) :=
  if isNew then
    let this1 :=
      match Folder.parent this with
      | Some p =>
        match folders st !! p with
        | Some parentFolder => Folder.set_path (fullPath parentFolder) this
        | None => this
        end
      | None => this
      end in
    let st1 :=
      match Folder.parent this with
      | Some p => Folder_inc_folderCount st p 1
      | None => st
      end in
    Ok (st1, this1)
  else if decide (Folder.parent orig = Folder.parent this) then Ok (st, this)
  else
    let oldParent := Folder.parent this ≫= (folders st !!.) in
    let newPath :=
      match oldParent with
      | Some o => fullPath o +:+ Folder.name this +:+ "/"
      | None => "/" +:+ Folder.name this +:+ "/"
      end in
    let this1 := Folder.set_path newPath this in
    match schema_updateDescendantPaths None st id (Folder.path this1) with
    | Throw st' => Throw st'
    | Ok st' => Ok (st', this1)
    end.

(** [doc.save()] on a folder: the hook, then the write. A new document is
    inserted whole; an existing one gets its modified paths written, and the
    save raises when the document is no longer in the collection. *)
Definition Folder_save (st : Store) (isNew : bool) (id : Id)
    (orig this : Folder.t) : Exn Store :=
  match Folder_pre_save st isNew id orig this with
  | Throw st' => Throw st'
  | Ok (st1, this1) =>
    if isNew then Ok (with_folders (<[id := this1]> (folders st1)) st1)
    else
      match folders st1 !! id with
      | Some stored =>
        Ok (with_folders
              (<[id := Folder_merge orig this1 stored]> (folders st1)) st1)
      | None => Throw st1
      end
  end.

(** The guard every folder operation uses:
    [folder.owner.toString() !== userId.toString() &&
     !folder.hasPermission(userId, level)] is the refusal. *)
Definition folder_allows (folder : Folder.t) (userId : Id) (level : string)
    : bool :=
  bool_decide (Folder.owner folder = userId)
  || Folder_hasPermission folder userId level.

(** [String.prototype.trim]: the white space and line terminators among
    the code units below 256 are tab, line feed, vertical tab, form feed,
    carriage return, space and the no-break space (160). *)
Definition isWhiteSpace (a : Ascii.ascii) : bool :=
  Ascii.is_space a || bool_decide (Ascii.nat_of_ascii a = 160).

Fixpoint trimStart (s : string) : string :=
  match s with
  | String a s' => if isWhiteSpace a then trimStart s' else s
  | EmptyString => EmptyString
  end.

Definition trim (s : string) : string :=
  String.rev (trimStart (String.rev (trimStart s))).

(** ** Folder controller *)

(** [Folder.findOne({ name, parent, owner, isTrash: false, _id: { $ne } })]
    used as a yes/no test: is there a live folder of that name, owner and
    parent, other than [except]? *)
Definition Folder_name_taken (st : Store) (name : string)
    (parent : option Id) (owner : Id) (except : option Id) : bool :=
  bool_decide
    (filter (λ d, Folder.name d.2 = name ∧ Folder.parent d.2 = parent
                  ∧ Folder.owner d.2 = owner ∧ Folder.isTrash d.2 = false
                  ∧ Some d.1 ≠ except)
            (map_to_list (folders st)) ≠ []).

(** The validators of the folder schema that a new or changed name can
    fail: [maxlength: 255] (part_000 l.7-12). Validation comes first in a
    save, before the pre-save hook of the schema. *)
Definition Folder_validate (this : Folder.t) : bool :=
  bool_decide (String.length (Folder.name this) ≤ 255).

(** [createFolder] (l.553-635). [newId] is the [_id] that [new Folder]
    draws. *)
Definition createFolder (st : Store) (userId : Id) (name : string)
    (parent : option Id) (newId : Id) : Response * Store :=
  if decide (trim name = "") then (Json 400 "Folder name is required", st)
  else if Folder_name_taken st (trim name) parent userId None then
    (Json 409 "A folder with this name already exists in this location", st)
  else
    let folder := Folder.mk (trim name) parent "/" userId [] false None 0 in
    match parent with
    | Some p =>
      match folders st !! p with
      | None => (Json 404 "Parent folder not found", st)
      | Some parentFolder =>
        if negb (folder_allows parentFolder userId FILE_PERMISSIONS.EDIT) then
          (Json 403 "You do not have permission to create a folder here", st)
        else
          let parentFolder' :=
            Folder.set_folderCount (Folder.folderCount parentFolder + 1)%Z
                                   parentFolder in
          match Folder_save st false p parentFolder parentFolder' with
          | Throw st1 => (Json 500 "Error creating folder", st1)
          | Ok st1 =>
            let folder1 :=
              Folder.set_path (Folder.path parentFolder
                               +:+ Folder.name parentFolder +:+ "/") folder in
            if negb (Folder_validate folder1) then
              (Json 500 "Error creating folder", st1)
            else
              match Folder_save st1 true newId folder1 folder1 with
              | Throw st2 => (Json 500 "Error creating folder", st2)
              | Ok st2 => (Json 201 "", st2)
              end
          end
      end
    | None =>
      let folder1 := Folder.set_path "/" folder in
      if negb (Folder_validate folder1) then
        (Json 500 "Error creating folder", st)
      else
        match Folder_save st true newId folder1 folder1 with
        | Throw st1 => (Json 500 "Error creating folder", st1)
        | Ok st1 => (Json 201 "", st1)
        end
    end.

(** [isDescendantFolder(parentId, childId)] (l.1247-1265): the [while] loop
    that climbs from [childId]; [currentId] is [None] for a null parent. *)
Fixpoint isDescendantFolder (fuel : nat) (st : Store) (parentId : Id)
    (currentId : option Id) : option bool :=
  match currentId with
  | None => Some false
  | Some c =>
    match fuel with
    | 0 => None
    | S fuel' =>
      match folders st !! c with
      | None => Some false
      | Some folder =>
        match Folder.parent folder with
        | Some p =>
          if decide (p = parentId) then Some true
          else isDescendantFolder fuel' st parentId (Some p)
        | None => isDescendantFolder fuel' st parentId None
        end
      end
    end
  end.

(** The controller's [updateDescendantPaths(parentId, parentPath)]
    (l.1268-1289). *)
Fixpoint updateDescendantPaths (fuel : nat) (st : Store) (parentId : Id)
    (parentPath : string) : option (Exn Store) :=
  match fuel with
  | 0 => None
  | S fuel' =>
    let children := Folder_find_by_parent st parentId in
    foldl
      (λ acc child,
         match acc with
         | Some (Ok st0) =>
           let oldPath := Folder.path child.2 in
           let newPath := parentPath +:+ Folder.name child.2 +:+ "/" in
           if decide (oldPath = newPath) then Some (Ok st0)
           else
             match Folder_save st0 false child.1 child.2
                               (Folder.set_path newPath child.2) with
             | Throw st1 => Some (Throw st1)
             | Ok st1 => updateDescendantPaths fuel' st1 child.1 newPath
             end
         | _ => acc
         end)
      (Some (Ok st)) children
  end.

(** [moveFolder] (l.1103-1244). [parentId = None] stands for a null, absent
    or empty [parentId] in the request body. *)
Definition moveFolder (fuel : nat) (st : Store) (userId : Id) (id : Id)
    (parentId : option Id) : option (Response * Store) :=
  match folders st !! id with
  | None => Some (Json 404 "Folder not found", st)
  | Some folder =>
    if negb (folder_allows folder userId FILE_PERMISSIONS.EDIT) then
      Some (Json 403 "You do not have permission to move this folder", st)
    else
      match parentId with
      | None =>
        let st1 :=
          match Folder.parent folder with
          | Some op => Folder_inc_folderCount st op (-1)
          | None => st
          end in
        let folder' := Folder.set_path "/" (Folder.set_parent None folder) in
        match Folder_save st1 false id folder folder' with
        | Throw st2 => Some (Json 500 "Error moving folder", st2)
        | Ok st2 =>
          match updateDescendantPaths fuel st2 id (Folder.path folder') with
          | None => None
          | Some (Throw st3) => Some (Json 500 "Error moving folder", st3)
          | Some (Ok st3) => Some (Json 200 "Folder moved to root", st3)
          end
        end
      | Some pid =>
        match folders st !! pid with
        | None => Some (Json 404 "Destination folder not found", st)
        | Some newParent =>
          if negb (folder_allows newParent userId FILE_PERMISSIONS.EDIT) then
            Some (Json 403
              "You do not have permission to move to the destination folder",
              st)
          else if decide (id = pid) then
            Some (Json 400 "Cannot move a folder into itself", st)
          else
            match isDescendantFolder fuel st id (Some pid) with
            | None => None
            | Some true =>
              Some (Json 400
                "Cannot move a folder into one of its subfolders", st)
            | Some false =>
              if Folder_name_taken st (Folder.name folder) (Some pid)
                                   (Folder.owner folder) (Some id) then
                Some (Json 409
                  "A folder with this name already exists in the destination",
                  st)
              else
                let st1 :=
                  match Folder.parent folder with
                  | Some op =>
                    if decide (op = pid) then st
                    else Folder_inc_folderCount st op (-1)
                  | None => st
                  end in
                let st2 :=
                  if decide (Folder.parent folder = Some pid) then st1
                  else Folder_inc_folderCount st1 pid 1 in
                let folder' :=
                  Folder.set_path (Folder.path newParent
                                   +:+ Folder.name newParent +:+ "/")
                                  (Folder.set_parent (Some pid) folder) in
                match Folder_save st2 false id folder folder' with
                | Throw st3 => Some (Json 500 "Error moving folder", st3)
                | Ok st3 =>
                  match updateDescendantPaths fuel st3 id
                                              (Folder.path folder') with
                  | None => None
                  | Some (Throw st4) =>
                    Some (Json 500 "Error moving folder", st4)
                  | Some (Ok st4) =>
                    Some (Json 200 "Folder moved successfully", st4)
                  end
                end
            end
        end
      end
  end.

(** [deleteFolderRecursive(folderId)] (l.1081-1100). Its body starts with
    [File.deleteMany({ folder: folderId })] (l.1084), a call on the
    exported object: it raises, and the [catch] logs the error and throws
    it again. *)
Definition deleteFolderRecursive (st : Store) (folderId : Id) : Exn Store :=
  Throw st.

(** [deleteFolder] (l.999-1078). [permanent] is the truth value of the
    query parameter. On the way to the trash the folder is saved and the
    count of its parent lowered before [File.updateMany] (l.1054) raises;
    [folder.deletedAt] is no path of the schema and is not stored. *)
Definition deleteFolder (st : Store) (userId : Id) (id : Id)
    (permanent : bool) : Response * Store :=
  match folders st !! id with
  | None => (Json 404 "Folder not found", st)
  | Some folder =>
    if negb (folder_allows folder userId FILE_PERMISSIONS.MANAGE) then
      (Json 403 "You do not have permission to delete this folder", st)
    else if permanent then
      match deleteFolderRecursive st id with
      | Throw st1 => (Json 500 "Error deleting folder", st1)
      | Ok st1 =>
        let st2 :=
          match Folder.parent folder with
          | Some p => Folder_inc_folderCount st1 p (-1)
          | None => st1
          end in
        (Json 200 "Folder permanently deleted", st2)
      end
    else
      match Folder_save st false id folder (Folder.set_isTrash true folder)
      with
      | Throw st1 => (Json 500 "Error deleting folder", st1)
      | Ok st1 =>
        let st2 :=
          match Folder.parent folder with
          | Some p => Folder_inc_folderCount st1 p (-1)
          | None => st1
          end in
        (Json 500 "Error deleting folder", st2)
      end
  end.

(** [shareFolder] (folder.controller.part2.js l.11-101). [permission] is
    [None] when the body carries none. After the checks the next step is
    [User.findById(userId)] (l.52), a call on the exported object: it
    raises, and no grant is written; [message] and [now] are not
    reached. *)
Definition shareFolder (st : Store) (currentUserId : Id) (id : Id)
    (userId : Id) (permission : option string) (message : option string)
    (now : nat) : Response * Store :=
  match permission with
  | None =>
    (Json 400 "Invalid permission. Must be one of: view, edit, manage", st)
  | Some permission =>
    if negb (includes FILE_PERMISSIONS.values permission) then
      (Json 400 "Invalid permission. Must be one of: view, edit, manage", st)
    else
      match folders st !! id with
      | None => (Json 404 "Folder not found", st)
      | Some folder =>
        if negb (folder_allows folder currentUserId FILE_PERMISSIONS.MANAGE)
        then (Json 403 "You do not have permission to share this folder", st)
        else if decide (userId = currentUserId) then
          (Json 400 "Cannot share with yourself", st)
        else (Json 500 "Error sharing folder", st)
      end
  end.

(** ** File model: the pre-save hook (file.model.js l.289-318) *)

#[global] Instance Download_eq_dec : EqDecision Download.t.
Proof. solve_decision. Defined.
#[global] Instance Risk_eq_dec : EqDecision Risk.t.
Proof. solve_decision. Defined.

(** [this.isModified('storage.key')]. *)
Definition storage_key_modified (orig this : File.t) : bool :=
  bool_decide (Storage.key <$> File.storage orig
               ≠ Storage.key <$> File.storage this).

(** [this] is the document being saved, with the values the caller has
    already assigned. *)
Definition File_pre_save (isNew : bool) (orig this : File.t) (now : nat)
    : File.t :=
  if storage_key_modified orig this && negb isNew then
    match File.storage this with
    | Some storage =>
      if decide (Storage.key storage = "") then this
      else
        File.set_versioning
          (File.currentVersion this + 1)%Z
          (File.versions this ++
             [Version.mk (File.currentVersion this) (Storage.key storage)
                         (File.size this) (File.mimeType this) now
                         (File.owner this)])
          this
    | None => this
    end
  else this.

Definition File_merge (orig this stored : File.t) : File.t :=
  File.mk
    (pick (File.name orig) (File.name this) (File.name stored))
    (pick (File.mimeType orig) (File.mimeType this) (File.mimeType stored))
    (pick (File.size orig) (File.size this) (File.size stored))
    (pick (File.owner orig) (File.owner this) (File.owner stored))
    (pick (File.folder orig) (File.folder this) (File.folder stored))
    (pick (File.status orig) (File.status this) (File.status stored))
    (pick (File.deletedAt orig) (File.deletedAt this) (File.deletedAt stored))
    (pick (File.storage orig) (File.storage this) (File.storage stored))
    (pick (File.sharedWith orig) (File.sharedWith this)
          (File.sharedWith stored))
    (pick (File.currentVersion orig) (File.currentVersion this)
          (File.currentVersion stored))
    (pick (File.versions orig) (File.versions this) (File.versions stored))
    (pick (File.downloads orig) (File.downloads this) (File.downloads stored))
    (pick (File.riskAssessment orig) (File.riskAssessment this)
          (File.riskAssessment stored))
    (pick (File.quarantineReason orig) (File.quarantineReason this)
          (File.quarantineReason stored))
    (pick (File.restoreReason orig) (File.restoreReason this)
          (File.restoreReason stored)).

(** [doc.save()] on a file. *)
Definition File_save (st : Store) (isNew : bool) (id : Id)
    (orig this : File.t) (now : nat) : Exn Store :=
  let this1 := File_pre_save isNew orig this now in
  if isNew then Ok (with_files (<[id := this1]> (files st)) st)
  else
    match files st !! id with
    | Some stored =>
      Ok (with_files (<[id := File_merge orig this1 stored]> (files st)) st)
    | None => Throw st
    end.

(** ** File controller (file.controller.js) *)

Module Upload.
(** [req.file]. *)
Record t := mk { originalname : string; mimetype : string; size : Z }.
End Upload.

(** The verdict the [catch] of l.71-83 puts in place of a risk assessment
    that raised. *)
Definition fallbackAssessment : Risk.t := Risk.mk 100 "high" true true.

(** [uploadFile] (l.17-227). [assessment] is what
    [riskScoringService.calculateRiskScore] resolves to, [None] when it
    raises; [maxFileSize] is [config.aws.s3.maxFileSize]. The result lists,
    oldest first, the database after each of the writes the call performs.
    A call that gets past the risk gate goes on to [User.findById(userId)]
    (l.86), a call on the exported object: it raises and the outer [catch]
    answers, so there is no write, and [folderId], [uploaded] (what
    [storageService.uploadFile] would resolve to), [newId] and [now] are
    not reached. *)
Definition uploadFile (maxFileSize : Z) (st : Store)
    (file : option Upload.t) (userId : Id) (folderId : option Id)
    (assessment : option Risk.t) (uploaded : option Storage.t)
    (newId : Id) (now : nat) : Response * list Store :=
  match file with
  | None => (Json 400 "No file uploaded", [])
  | Some file =>
    if decide (Upload.size file > maxFileSize)%Z then
      (Json 400 "File size exceeds the limit", [])
    else
      let checked :=
        match assessment with
        | Some a =>
          if Risk.isMalicious a || bool_decide (Risk.riskLevel a = "high")
          then None else Some a
        | None => Some fallbackAssessment
        end in
      match checked with
      | None => (Json 403 "File blocked due to security concerns", [])
      | Some riskAssessment => (Json 500 "Error uploading file", [])
      end
  end.

(** The database a call leaves behind, given the one it started from. *)
Definition final_store (st : Store) (trace : list Store) : Store :=
  default st (last trace).

(** [downloadFile] (l.234-292). The body starts with [File.findOne(...)]
    (l.240), a call on the exported object: it raises and the [catch]
    answers. [signedUrl], what [storageService.getSignedUrl] would resolve
    to, is never asked for. *)
Definition downloadFile (st : Store) (userId : Id) (id : Id)
    (signedUrl : option string) (now : nat) : Response * Store :=
  (Json 500 "Error downloading file", st).

(** [shareFile] (l.589-678). [permission] is [None] when the body carries
    none, in which case the default ['view'] applies. After the two checks
    the next step is [File.findOne(...)] (l.612), which raises. *)
Definition shareFile (st : Store) (userId : Id) (id : Id)
    (shareWithUserId : Id) (permission : option string)
    (message : option string) (now : nat) : Response * Store :=
  let permission := default "view" permission in
  if negb (includes ["view"; "edit"] permission) then
    (Json 400 "Invalid permission. Must be view or edit", st)
  else if decide (userId = shareWithUserId) then
    (Json 400 "Cannot share file with yourself", st)
  else (Json 500 "Error sharing file", st).

(** [quarantineFile] (l.741-794). The body starts with [File.findById(id)]
    (l.747), which raises; [relocated], what [storageService.quarantineFile]
    would resolve to, is never asked for. *)
Definition quarantineFile (st : Store) (id : Id) (reason : option string)
    (relocated : option Storage.t) (now : nat) : Response * Store :=
  (Json 500 "Error quarantining file", st).

(** [restoreFile] (l.801-853). The body starts with [File.findById(id)]
    (l.807), which raises. *)
Definition restoreFile (st : Store) (id : Id) (reason : option string)
    (relocated : option Storage.t) (now : nat) : Response * Store :=
  (Json 500 "Error restoring file", st).

(** ** The scanner and the upload path that uses it
    (utils/aiScanner.js, and the file controller that imports it) *)

Module ScanResult.
Record t := mk { riskScore : Z; isMalicious : bool }.
End ScanResult.

(** [analyzeFile] (aiScanner.js l.83-99). [analysis] is what
    [analyzeFileContent] resolves to, [None] when it raises. *)
Definition analyzeFile (analysis : option ScanResult.t) : ScanResult.t :=
  match analysis with
  | Some result => result
  | None => ScanResult.mk 100 true
  end.

Module Scanned.
(** The file documents of that controller. *)
Record t := mk {
  user : Id;
  originalName : string;
  fileSize : Z;
  riskScore : Z;
  isQuarantined : bool;
  downloadCount : Z
}.

(** [uploadFile]. [moved] tells whether [file.mv] went through, [analysis]
    is the outcome of the content analysis, [newId] the [_id] of the
    record that [File.create] makes. *)
Definition uploadFile (db : gmap Id t) (file : option Upload.t)
    (userId : Id) (moved : bool) (analysis : option ScanResult.t)
    (newId : Id) : Response * gmap Id t :=
  match file with
  | None => (Json 400 "No files were uploaded.", db)
  | Some file =>
    if negb moved then (Json 500 "", db)
    else
      let scanResult := analyzeFile analysis in
      let fileRecord :=
        mk userId (Upload.originalname file) (Upload.size file)
           (ScanResult.riskScore scanResult)
           (ScanResult.isMalicious scanResult) 0 in
      (Json 201 "File uploaded successfully", <[newId := fileRecord]> db)
  end.

(** [downloadFile]. [onDisk] is [fs.existsSync(file.storagePath)]. *)
Definition downloadFile (db : gmap Id t) (id : Id) (onDisk : bool)
    : Response * gmap Id t :=
  match db !! id with
  | None => (Json 404 "File not found", db)
  | Some file =>
    if isQuarantined file then
      (Json 403 "This file has been quarantined due to security concerns",
       db)
    else if negb onDisk then (Json 404 "File not found on server", db)
    else
      (SendFile (originalName file),
       <[id := mk (user file) (originalName file) (fileSize file)
                   (riskScore file) (isQuarantined file)
                   (downloadCount file + 1)]> db)
  end.
End Scanned.

(** ** Vocabulary of the properties *)

(** The three levels with the fixed ordering view(0) < edit(1) < manage(2). *)
Inductive Level := view | edit | manage.

Definition level_name (l : Level) : string :=
  match l with
  | view => FILE_PERMISSIONS.VIEW
  | edit => FILE_PERMISSIONS.EDIT
  | manage => FILE_PERMISSIONS.MANAGE
  end.

Definition ordinal (l : Level) : nat :=
  match l with view => 0 | edit => 1 | manage => 2 end.

(** A resource is a folder or a file; [check] is its [hasPermission]. *)
Inductive Resource := OfFolder (f : Folder.t) | OfFile (f : File.t).

Definition resource_owner (r : Resource) : Id :=
  match r with OfFolder f => Folder.owner f | OfFile f => File.owner f end.

Definition resource_sharedWith (r : Resource) : list SharedGrant.t :=
  match r with
  | OfFolder f => Folder.sharedWith f
  | OfFile f => File.sharedWith f
  end.

Definition check (r : Resource) (userId : Id) (required : string) : bool :=
  match r with
  | OfFolder f => Folder_hasPermission f userId required
  | OfFile f => File_hasPermission f userId required
  end.

(** [g] is the entry of [grants] that a lookup for [userId] meets first. *)
Definition first_grant (grants : list SharedGrant.t) (userId : Id)
    (g : SharedGrant.t) : Prop :=
  ∃ before after,
    grants = before ++ g :: after
    ∧ SharedGrant.user g = userId
    ∧ ∀ h, h ∈ before → SharedGrant.user h ≠ userId.

(** [b] is a descendant of [a]: [a] is met when walking up from [b] along
    the [parent] references. *)
Inductive descendant_of (st : Store) (a : Id) : Id → Prop :=
| descendant_child b f :
    folders st !! b = Some f → Folder.parent f = Some a →
    descendant_of st a b
| descendant_step b f p :
    folders st !! b = Some f → Folder.parent f = Some p →
    descendant_of st a p → descendant_of st a b.

(** The two answers that report a circular move, and a refusal. *)
Definition CircularReferenceError (r : Response) : Prop :=
  r = Json 400 "Cannot move a folder into itself"
  ∨ r = Json 400 "Cannot move a folder into one of its subfolders".

Definition PermissionDenied (r : Response) : Prop :=
  ∃ m, r = Json 403 m.

(** Path invariant: every folder whose parent resolves has
    [path = parent.path + parent.name + "/"]. *)
Definition path_ok (st : Store) (f : Folder.t) : Prop :=
  match Folder.parent f with
  | None => True
  | Some p =>
    match folders st !! p with
    | Some parentFolder =>
      Folder.path f
      = Folder.path parentFolder +:+ Folder.name parentFolder +:+ "/"
    | None => True
    end
  end.

#[global] Instance path_ok_dec st f : Decision (path_ok st f).
Proof. unfold path_ok. repeat case_match; apply _. Defined.

Definition path_invariant (st : Store) : Prop :=
  map_Forall (λ _ f, path_ok st f) (folders st).

#[global] Instance path_invariant_dec st : Decision (path_invariant st).
Proof. unfold path_invariant. apply _. Defined.

(** Acyclicity, with a bound on the depth: [rank] grows strictly from a
    parent to its children and stays below [bound]. *)
Definition rank_ok (rank : Id → nat) (bound : nat) (id : Id)
    (f : Folder.t) : Prop :=
  rank id ≤ bound
  ∧ match Folder.parent f with
    | Some p => rank p < rank id
    | None => True
    end.

#[global] Instance rank_ok_dec rank bound id f :
  Decision (rank_ok rank bound id f).
Proof. unfold rank_ok. case_match; apply _. Defined.

Definition ranked (st : Store) (rank : Id → nat) (bound : nat) : Prop :=
  map_Forall (rank_ok rank bound) (folders st).

#[global] Instance ranked_dec st rank bound : Decision (ranked st rank bound).
Proof. unfold ranked. apply _. Defined.

(** [$inc: { folderCount: -1 }] seen on one document. *)
Definition one_less (f : Folder.t) : Folder.t :=
  Folder.set_folderCount (Folder.folderCount f - 1) f.

(** [s] has the folders of [st], each with the parent it has in [st], and
    the files and users of [st]. *)
Definition same_shape (st s : Store) : Prop :=
  (∀ d, Folder.parent <$> folders s !! d = Folder.parent <$> folders st !! d)
  ∧ files s = files st ∧ users s = users st.

(** One turn of the loop of [updateDescendantPaths] over the children. *)
Definition repath_child (fuel : nat) (parentPath : string)
    (acc : option (Exn Store)) (child : Id * Folder.t)
    : option (Exn Store) :=
  match acc with
  | Some (Ok st0) =>
    let oldPath := Folder.path child.2 in
    let newPath := parentPath +:+ Folder.name child.2 +:+ "/" in
    if decide (oldPath = newPath) then Some (Ok st0)
    else
      match Folder_save st0 false child.1 child.2
                        (Folder.set_path newPath child.2) with
      | Throw st1 => Some (Throw st1)
      | Ok st1 => updateDescendantPaths fuel st1 child.1 newPath
      end
  | _ => acc
  end.

(** ** Sample databases

    User 10 owns everything; user 11 is another registered user. Folder 1 is
    "A" at root level with one child, folder 2 "C", whose path is "/A/". *)

Definition sample_A : Folder.t := Folder.mk "A" None "/" 10 [] false None 1.
Definition sample_C : Folder.t :=
  Folder.mk "C" (Some 1%positive) "/A/" 10 [] false None 0.

Definition sample_users : gmap Id User.t :=
  <[10%positive := User.mk 0 1000]> (<[11%positive := User.mk 0 1000]> ∅).

Definition sample_tree : Store :=
  mkStore (<[1%positive := sample_A]> (<[2%positive := sample_C]> ∅)) ∅
          sample_users.

(** File 5: version 1 of a text file stored under key "k1". *)
Definition sample_file : File.t :=
  File.mk "a.txt" "text/plain" 10 10 None ACTIVE None
          (Some (Storage.mk "k1" "u1" "e1")) [] 1 [] [] None None None.

Definition sample_files : Store :=
  mkStore ∅ (<[5%positive := sample_file]> ∅) sample_users.

(** File 5 in quarantine. *)
Definition sample_quarantined_files : Store :=
  mkStore ∅ (<[5%positive := File.set_status QUARANTINED sample_file]> ∅)
          sample_users.

(** File 5 shared with user 11 at level manage; user 12 is registered. *)
Definition sample_shared_files : Store :=
  mkStore ∅
    (<[5%positive :=
         File.set_sharedWith [SharedGrant.mk 11 "manage" 1 10 None]
                             sample_file]> ∅)
    (<[12%positive := User.mk 0 1000]> sample_users).

(** Depth of the folders of [sample_tree]: "A" is at depth 0, "C" at 1. *)
Definition sample_rank (id : Id) : nat :=
  if decide (id = 1%positive) then 0 else 1.

(** Two root-level folders of the same owner and the same name. *)
Definition sample_twins : Store :=
  mkStore (<[1%positive := sample_A]>
             (<[4%positive := Folder.mk "A" None "/" 10 [] false None 0]> ∅))
          ∅ sample_users.

(** ** Removing a grant, renaming a folder *)

(** [unshareFolder] (folder.controller.part2.js l.104-156).
    [sharedWith.splice(shareIndex, 1)] removes the entry at [shareIndex]. *)
Definition unshareFolder (st : Store) (currentUserId : Id) (id : Id)
    (userId : Id) : Response * Store :=
  match folders st !! id with
  | None => (Json 404 "Folder not found", st)
  | Some folder =>
    if negb (folder_allows folder currentUserId FILE_PERMISSIONS.MANAGE) then
      (Json 403 "You do not have permission to manage shares for this folder",
       st)
    else
      match findIndex (λ share, bool_decide (SharedGrant.user share = userId))
                      (Folder.sharedWith folder) with
      | None => (Json 404 "Share not found", st)
      | Some shareIndex =>
        let sharedWith' := delete shareIndex (Folder.sharedWith folder) in
        match Folder_save st false id folder
                          (Folder.set_sharedWith sharedWith' folder) with
        | Throw st1 => (Json 500 "Error removing share", st1)
        | Ok st1 => (Json 200 "Share removed successfully", st1)
        end
      end
  end.

(** [unshareFile] (file.controller.js l.685-734). The body starts with
    [File.findOne(...)] (l.691), which raises. *)
Definition unshareFile (st : Store) (userId : Id) (id : Id)
    (shareWithUserId : Id) (now : nat) : Response * Store :=
  (Json 500 "Error removing file access", st).

Definition Folder_set_name (n : string) (f : Folder.t) : Folder.t :=
  Folder.mk n (Folder.parent f) (Folder.path f) (Folder.owner f)
            (Folder.sharedWith f) (Folder.isTrash f) (Folder.deletedAt f)
            (Folder.folderCount f).

(** [updateFolder] (l.915-996). [name] is the string of the body, [None]
    when the body carries none; the description, colour, icon and metadata
    it may also set are outside the documents. *)
Definition updateFolder (st : Store) (userId : Id) (id : Id)
    (name : option string) : Response * Store :=
  match folders st !! id with
  | None => (Json 404 "Folder not found", st)
  | Some folder =>
    if negb (folder_allows folder userId FILE_PERMISSIONS.EDIT) then
      (Json 403 "You do not have permission to edit this folder", st)
    else
      let save folder' :=
        match Folder_save st false id folder folder' with
        | Throw st1 => (Json 500 "Error updating folder", st1)
        | Ok st1 => (Json 200 "", st1)
        end in
      match name with
      | Some name =>
        if decide (name ≠ "" ∧ trim name ≠ "") then
          if Folder_name_taken st (trim name) (Folder.parent folder)
                               (Folder.owner folder) (Some id) then
            (Json 409
               "A folder with this name already exists in this location", st)
          else
            let folder' := Folder_set_name (trim name) folder in
            if negb (Folder_validate folder') then
              (Json 500 "Error updating folder", st)
            else save folder'
        else save folder
      | None => save folder
      end
  end.

(** ** Folder model: [getBreadcrumbs] (l.273-298) *)

Module Crumb.
Record t := mk { id : option Id; name : string; path : string }.
End Crumb.

(** The [while (currentId)] loop; [unshift] puts the new entry in front. *)
Fixpoint getBreadcrumbs_loop (fuel : nat) (st : Store)
    (currentId : option Id) (breadcrumbs : list Crumb.t)
    : option (list Crumb.t) :=
  match currentId with
  | None => Some breadcrumbs
  | Some current =>
    match fuel with
    | 0 => None
    | S fuel' =>
      match folders st !! current with
      | None => Some breadcrumbs
      | Some folder =>
        getBreadcrumbs_loop fuel' st (Folder.parent folder)
          (Crumb.mk (Some current) (Folder.name folder) (fullPath folder)
           :: breadcrumbs)
      end
    end
  end.

Definition getBreadcrumbs (fuel : nat) (st : Store) (folderId : option Id)
    : option (list Crumb.t) :=
  match getBreadcrumbs_loop fuel st folderId [] with
  | Some breadcrumbs => Some (Crumb.mk None "Root" "/" :: breadcrumbs)
  | None => None
  end.

(** ** Content analysis (utils/aiScanner.js, [analyzeFileContent] l.10-80) *)

From Stdlib Require Import Ascii.

(** [String.prototype.toLowerCase], on ASCII letters. *)
Definition toLowerCase_char (c : ascii) : ascii :=
  if Ascii.leb "A"%char c && Ascii.leb c "Z"%char
  then Ascii.ascii_of_nat (Ascii.nat_of_ascii c + 32) else c.

Fixpoint toLowerCase (s : string) : string :=
  match s with
  | String c s' => String (toLowerCase_char c) (toLowerCase s')
  | EmptyString => EmptyString
  end.

(** [s.split('.').pop()]: what follows the last dot, the whole of [s] when
    it has no dot. [segment] is the part read since the last dot. *)
Fixpoint split_dot_pop (s : string) (segment : string) : string :=
  match s with
  | String c s' =>
    if Ascii.eqb c "."%char then split_dot_pop s' ""
    else split_dot_pop s' (segment +:+ String c "")
  | EmptyString => segment
  end.

Definition riskyExtensions : list string :=
  [".exe"; ".dll"; ".bat"; ".js"; ".vbs"; ".ps1"; ".sh"].

(** The [pattern] strings of [suspiciousPatterns], as the string literals
    of the source evaluate: a backslash before a parenthesis or a dot
    stands for that character alone. *)
Definition suspiciousPatterns : list string :=
  ["eval("; "base64_decode("; "shell_exec("; "document.write("].

(** [new RegExp(pattern, 'i')] raises a SyntaxError on a pattern that
    leaves a group or a character class open, closes a group it did not
    open, or ends in a backslash. [RegExp_wellformed] reads the pattern
    with the number of open groups and whether a class is open. *)
Fixpoint RegExp_wellformed (pattern : string) (depth : nat) (inClass : bool)
    : bool :=
  match pattern with
  | EmptyString => bool_decide (depth = 0) && negb inClass
  | String c rest =>
    if Ascii.eqb c "\"%char then
      match rest with
      | EmptyString => false
      | String _ rest' => RegExp_wellformed rest' depth inClass
      end
    else if inClass then
      RegExp_wellformed rest depth (negb (Ascii.eqb c "]"%char))
    else if Ascii.eqb c "["%char then RegExp_wellformed rest depth true
    else if Ascii.eqb c "("%char then RegExp_wellformed rest (S depth) false
    else if Ascii.eqb c ")"%char then
      match depth with
      | 0 => false
      | S depth' => RegExp_wellformed rest depth' false
      end
    else RegExp_wellformed rest depth false
  end.

(** For a pattern that passes this test, [regex] tells whether it compiles
    ([None] when it raises) and which contents it matches. *)
Definition RegExp (regex : string → option (string → bool))
    (pattern : string) : option (string → bool) :=
  if RegExp_wellformed pattern 0 false then regex pattern else None.

(** The [forEach] over the patterns: the score so far, and whether a turn
    raised. *)
Fixpoint scanPatterns (regex : string → option (string → bool))
    (fileContent : string) (patterns : list string) (riskScore : Z)
    : Z * bool :=
  match patterns with
  | [] => (riskScore, false)
  | pattern :: patterns' =>
    match RegExp regex pattern with
    | None => (riskScore, true)
    | Some matches =>
      scanPatterns regex fileContent patterns'
        (if matches fileContent then riskScore + 15 else riskScore)%Z
    end
  end.

(** [stats] is the size [fs.statSync] reports, [None] when it raises;
    [content] is what [readFile] resolves to, [None] when it raises. The
    result is [None] when the call raises. *)
Definition analyzeFileContent (regex : string → option (string → bool))
    (filePath : string) (stats : option Z) (content : option string)
    : option ScanResult.t :=
  match stats with
  | None => None
  | Some size =>
    let riskScore := 0%Z in
    let fileExt := toLowerCase (split_dot_pop filePath "") in
    let riskScore :=
      if includes riskyExtensions ("." +:+ fileExt)
      then (riskScore + 40)%Z else riskScore in
    let riskScore :=
      if decide (size > 10 * (1024 * 1024))%Z
      then (riskScore + 20)%Z else riskScore in
    let riskScore :=
      match content with
      | Some fileContent =>
        match scanPatterns regex fileContent suspiciousPatterns riskScore with
        | (riskScore', false) => riskScore'
        | (riskScore', true) => (riskScore' + 10)%Z
        end
      | None => (riskScore + 10)%Z
      end in
    let riskScore := Z.min 100 (Z.max 0 riskScore) in
    Some (ScanResult.mk riskScore (bool_decide (riskScore > 70)%Z))
  end.

(** ** Risk scoring services (services/ai) *)

(** [_getRiskLevel], the same in the two services. *)
Definition _getRiskLevel (score : Z) : string :=
  if decide (score >= 80)%Z then "critical"
  else if decide (score >= 60)%Z then "high"
  else if decide (score >= 40)%Z then "medium"
  else if decide (score >= 20)%Z then "low"
  else "info".

Module AiResponse.
(** [response.data]; a field is [None] when the answer does not carry it.
    The score is an integer. *)
Record t := mk { score : option Z; is_malicious : option bool }.
End AiResponse.

(** [RiskScoringService._processRiskResponse]; [data.score || 0] is 0 for
    a missing score and for the score 0. *)
Definition _processRiskResponse (data : option AiResponse.t) : Risk.t :=
  match data with
  | None => Risk.mk 0 "low" false false
  | Some data =>
    Risk.mk (default 0%Z (AiResponse.score data))
            (_getRiskLevel (default 0%Z (AiResponse.score data)))
            (default false (AiResponse.is_malicious data))
            false
  end.

(** [RiskScoringService._handleError] and
    [MockRiskScoringService._getErrorResponse]. *)
Definition _handleError : Risk.t := Risk.mk 100 "high" true false.

(** [RiskScoringService.calculateRiskScore]. [response] is what the request
    to the model resolves to, [None] when building or sending it raises. *)
Definition calculateRiskScore (response : option (option AiResponse.t))
    : Risk.t :=
  match response with
  | Some data => _processRiskResponse data
  | None => _handleError
  end.

Definition MALICIOUS_SIGNATURES : list string :=
  ["4D5A9000030000000400"; "7F454C46"; "D0CF11E0A1B11AE1"; "25504446";
   "4F676753"].

Definition RISKY_EXTENSIONS : list string :=
  [".exe"; ".dll"; ".bat"; ".cmd"; ".ps1"; ".vbs";
   ".js"; ".jse"; ".wsf"; ".wsh"; ".msi"; ".jar"].

Definition SAFE_EXTENSIONS : list string :=
  [".txt"; ".md"; ".csv"; ".json"; ".xml";
   ".jpg"; ".jpeg"; ".png"; ".gif"; ".bmp";
   ".mp3"; ".wav"; ".mp4"; ".avi"; ".mov"].

(** [MockRiskScoringService.calculateRiskScore]. [fileExt] is
    [path.extname(file.originalname).toLowerCase()]; [sizeLog] is
    [Math.floor(Math.log10(fileSize || 1) * 5)]; [fileHex] is the content
    in upper-case hexadecimal, [None] when reading the file raises;
    [noise] is what [Math.random() * 10] adds to the score once it is
    rounded. *)
Definition mock_calculateRiskScore (fileExt : string) (sizeLog : Z)
    (fileHex : option string) (noise : Z) : Risk.t :=
  let riskScore := 0%Z in
  let riskScore :=
    if includes RISKY_EXTENSIONS fileExt then (riskScore + 60)%Z
    else if includes SAFE_EXTENSIONS fileExt then (riskScore - 10)%Z
    else (riskScore + 10)%Z in
  let sizeRisk := Z.min 30 sizeLog in
  let riskScore := (riskScore + sizeRisk)%Z in
  match fileHex with
  | None => _handleError
  | Some fileHex =>
    let foundSignatures :=
      List.filter (λ sig, String.prefix sig fileHex) MALICIOUS_SIGNATURES in
    let riskScore :=
      if decide (0 < length foundSignatures) then Z.max riskScore 90
      else riskScore in
    let riskScore := (riskScore + noise)%Z in
    let riskScore := Z.max 0 (Z.min 100 riskScore) in
    Risk.mk riskScore (_getRiskLevel riskScore)
            (bool_decide (riskScore >= 70)%Z) false
  end.

(** The users a list of grants names, in order. *)
Definition grantees (l : list SharedGrant.t) : list Id :=
  SharedGrant.user <$> l.

(** No folder and no file holds two grants for one user. *)
Definition grants_unique (st : Store) : Prop :=
  map_Forall (λ _ f, NoDup (grantees (Folder.sharedWith f))) (folders st)
  ∧ map_Forall (λ _ f, NoDup (grantees (File.sharedWith f))) (files st).

#[global] Instance grants_unique_dec st : Decision (grants_unique st).
Proof. unfold grants_unique. apply _. Defined.

(** [sample_tree] with folder "A" shared with user 11 at level edit. *)
Definition sample_shared_A : Folder.t :=
  Folder.set_sharedWith [SharedGrant.mk 11 "edit" 1 10 None] sample_A.

Definition sample_shared_tree : Store :=
  mkStore (<[1%positive := sample_shared_A]> (<[2%positive := sample_C]> ∅))
          ∅ sample_users.

(** Folders 1 "A", 2 "C" and 3 "D" in a chain, with file 5 in folder 2. *)
Definition sample_deep : Store :=
  mkStore
    (<[1%positive := sample_A]>
       (<[2%positive := Folder.mk "C" (Some 1%positive) "/A/" 10 [] false
                                  None 1]>
          (<[3%positive := Folder.mk "D" (Some 2%positive) "/A/C/" 10 []
                                     false None 0]> ∅)))
    (<[5%positive :=
         File.mk "a.txt" "text/plain" 10 10 (Some 2%positive) ACTIVE None
                 (Some (Storage.mk "k1" "u1" "e1")) [] 1 [] [] None None
                 None]> ∅)
    sample_users.

(** Two folders compete for a name: both are live, in the same place, of
    the same owner and of the same name. *)
Definition rivals (f g : Folder.t) : Prop :=
  Folder.isTrash f = false ∧ Folder.isTrash g = false
  ∧ Folder.parent f = Folder.parent g
  ∧ Folder.owner f = Folder.owner g
  ∧ Folder.name f = Folder.name g.

#[global] Instance rivals_dec f g : Decision (rivals f g).
Proof. unfold rivals. apply _. Defined.

(** No two folders of the database compete for a name. *)
Definition names_unique (st : Store) : Prop :=
  map_Forall
    (λ i f, map_Forall (λ j g, rivals f g → i = j) (folders st))
    (folders st).

#[global] Instance names_unique_dec st : Decision (names_unique st).
Proof. unfold names_unique. apply _. Defined.

(** The fields of a folder that decide whether it competes for a name. *)
Definition name_key (f : Folder.t)
    : string * option Id * Id * bool :=
  (Folder.name f, Folder.parent f, Folder.owner f, Folder.isTrash f).


(** The entry [getBreadcrumbs] makes for a folder. *)
Definition crumb_of (d : Id * Folder.t) : Crumb.t :=
  Crumb.mk (Some d.1) (Folder.name d.2) (fullPath d.2).

(** [chain] lists the folders from the topmost ancestor of [c] that the
    database holds down to [c] itself, each one the parent of the next. *)
Inductive lineage (st : Store) : Id → list (Id * Folder.t) → Prop :=
| lineage_top c f :
    folders st !! c = Some f →
    Folder.parent f ≫= (folders st !!.) = None →
    lineage st c [(c, f)]
| lineage_step c f p chain :
    folders st !! c = Some f → Folder.parent f = Some p →
    lineage st p chain →
    lineage st c (chain ++ [(c, f)]).


(** The test [uploadFile] and [fileScanMiddleware] apply to a verdict:
    [isMalicious || riskLevel === 'high']. *)
Definition flagged (a : Risk.t) : bool :=
  Risk.isMalicious a || bool_decide (Risk.riskLevel a = "high").

(** The answer of [uploadFile] to a flagged verdict. *)
Definition blocked : Response * list Store :=
  (Json 403 "File blocked due to security concerns", []).

(** The value of the variable [riskAssessment] of [uploadFile] once the
    [try]/[catch] of l.44-83 is over: the verdict the service returned, or
    the fallback when the call raised. *)
Definition applied_verdict (assessment : option Risk.t) : Risk.t :=
  default fallbackAssessment assessment.

(** The ways the risk assessment of an upload fails: the call of the
    service raises; the request of [RiskScoringService] to the model
    raises or times out (services/ai l.112-115); the mock scorer cannot
    read the file (l.323-326). *)
Inductive assessment_failed : option Risk.t → Prop :=
| failed_call : assessment_failed None
| failed_request : assessment_failed (Some (calculateRiskScore None))
| failed_read fileExt sizeLog noise :
    assessment_failed
      (Some (mock_calculateRiskScore fileExt sizeLog None noise)).

(** ** Upload scanning middleware (middleware/fileScan.middleware.js) *)

Module ReqFile.
(** An entry of [req.files]; [isSafe] is [None] while the property is not
    set. *)
Record t := mk {
  originalname : string;
  riskAssessment : option Risk.t;
  isSafe : option bool
}.
End ReqFile.

(** The body of the [map] in [fileScanMiddleware] (l.17-55). [outcome] is
    what [riskScoringService.calculateRiskScore] resolves to for the file,
    [None] when it raises. *)
Definition scanFile (outcome : option Risk.t) (file : ReqFile.t)
    : ReqFile.t :=
  match ReqFile.riskAssessment file with
  | Some _ => file
  | None =>
    match outcome with
    | Some riskAssessment =>
      ReqFile.mk (ReqFile.originalname file) (Some riskAssessment)
        (Some (negb (Risk.isMalicious riskAssessment)
               && negb (bool_decide
                          (Risk.riskLevel riskAssessment = "high"))))
    | None =>
      ReqFile.mk (ReqFile.originalname file)
        (Some (Risk.mk 100 "high" true false)) (Some false)
    end
  end.

(** [fileScanMiddleware]: what [req.files] is when [next()] is called.
    [scan i] is the outcome of the assessment of the file at position
    [i]. *)
Definition fileScanMiddleware (scan : nat → option Risk.t)
    (files : list ReqFile.t) : list ReqFile.t :=
  imap (λ i file, scanFile (scan i) file) files.

(** How a middleware ends: it calls [next()], it answers, or it raises. *)
Inductive Passage :=
| Next
| Answer (r : Response)
| Raises.

(** [!file.isSafe]. *)
Definition unsafe (file : ReqFile.t) : bool :=
  negb (default false (ReqFile.isSafe file)).

(** [blockUnsafeFiles(options)] (l.91-155). [acceptsHtml] is
    [req.accepts('html')]. [f.riskAssessment.riskLevel] raises for an
    unsafe file that carries no assessment. *)
Definition blockUnsafeFiles (redirectTo errorMessage : string)
    (logOnly acceptsHtml : bool) (files : list ReqFile.t) : Passage :=
  match files with
  | [] => Next
  | _ =>
    let unsafeFiles := List.filter unsafe files in
    if decide (0 < length unsafeFiles) then
      if forallb (λ f, bool_decide (is_Some (ReqFile.riskAssessment f)))
                 unsafeFiles
      then
        if logOnly then Next
        else if acceptsHtml then Answer (Redirect redirectTo)
        else Answer (Json 403 errorMessage)
      else Raises
    else Next
  end.

(** ** Permission middleware (auth middleware, [hasPermission] l.342-388)

    [req.user] as the middlewares read it. [id] is [None] for an id that
    is not the id of a document (the development user of [protect]);
    [role] is [None] when the property is missing. *)
Module ReqUser.
Record t := mk { id : option Id; role : option string }.
End ReqUser.

(** [requiredPermission] is [None] when the route names none; [doc] is
    [req.doc], [None] when no earlier middleware has set it. *)
Definition hasPermission_middleware (requiredPermission : option string)
    (user : ReqUser.t) (doc : option Resource) : Passage :=
  match requiredPermission with
  | None => Next
  | Some requiredPermission =>
    if decide (requiredPermission = "") then Next
    else if decide (ReqUser.role user = Some "admin") then Next
    else
      match doc with
      | None =>
        Answer (Json 403 "You do not have permission to perform this action")
      | Some doc =>
        if decide (Some (resource_owner doc) = ReqUser.id user) then Next
        else
          match List.find
                  (λ share,
                     bool_decide
                       (Some (SharedGrant.user share) = ReqUser.id user))
                  (resource_sharedWith doc) with
          | Some sharedAccess =>
            let permissionLevels := ["view"; "edit"; "manage"] in
            let userLevel :=
              indexOf permissionLevels (SharedGrant.permission sharedAccess)
            in
            let requiredLevel := indexOf permissionLevels requiredPermission
            in
            if decide (userLevel >= requiredLevel)%Z then Next
            else
              Answer (Json 403
                        "You do not have permission to perform this action")
          | None =>
            Answer (Json 403
                      "You do not have permission to perform this action")
          end
      end
  end.

(** ** Rate limiter (auth middleware, [rateLimiter] l.391-436) *)

Module RateEntry.
Record t := mk { count : Z; firstRequest : Z }.
End RateEntry.

(** One request from [ip] at time [now] (milliseconds): the cache after
    it, and whether it went through; [Some retryAfter] is the 429 answer.
    A refused request has been counted. *)
Definition rateLimiter (windowMs max : Z) (ipCache : gmap string RateEntry.t)
    (ip : string) (now : Z) : gmap string RateEntry.t * option Z :=
  match ipCache !! ip with
  | None => (<[ip := RateEntry.mk 1 now]> ipCache, None)
  | Some entry =>
    let entry' :=
      if decide (now - RateEntry.firstRequest entry > windowMs)%Z
      then RateEntry.mk 1 now
      else RateEntry.mk (RateEntry.count entry + 1)
                        (RateEntry.firstRequest entry) in
    let ipCache' := <[ip := entry']> ipCache in
    if decide (RateEntry.count entry' > max)%Z then
      (ipCache',
       Some (- ((- (RateEntry.firstRequest entry' + windowMs - now))
                `div` 1000))%Z)
    else (ipCache', None)
  end.

(** ** [getFolderTree] (folder controller, l.776-818) *)

(** A node of the answer: the fields that [select('name parent path')]
    keeps, and the children. *)
Inductive TreeNode :=
| Node (id : Id) (name : string) (parent : option Id) (path : string)
       (children : list TreeNode).

(** [Folder.find({ $or: [{ owner }, { 'sharedWith.user' }],
    isTrash: false })]. *)
Definition Folder_find_visible (st : Store) (userId : Id)
    : list (Id * Folder.t) :=
  filter (λ d, (Folder.owner d.2 = userId
                ∨ userId ∈ SharedGrant.user <$> Folder.sharedWith d.2)
               ∧ Folder.isTrash d.2 = false)
         (map_to_list (folders st)).

(** [buildTree(parentId)] over the folders the query returned. *)
Fixpoint buildTree (fuel : nat) (folders : list (Id * Folder.t))
    (parentId : option Id) : option (list TreeNode) :=
  match fuel with
  | 0 => None
  | S fuel' =>
    mapM (λ folder,
            match buildTree fuel' folders (Some folder.1) with
            | Some children =>
              Some (Node folder.1 (Folder.name folder.2)
                         (Folder.parent folder.2) (Folder.path folder.2)
                         children)
            | None => None
            end)
         (filter (λ folder, Folder.parent folder.2 = parentId) folders)
  end.

Definition getFolderTree (fuel : nat) (st : Store) (userId : Id)
    : option (list TreeNode) :=
  buildTree fuel (Folder_find_visible st userId) None.


(** Whether the file at a position of [req.files] counts as safe once
    [fileScanMiddleware] has run: a file that came with an assessment keeps
    the mark it came with, a file without one is safe when its assessment
    returns a verdict that is not flagged. *)
Definition passes_scan (outcome : option Risk.t) (file : ReqFile.t) : bool :=
  match ReqFile.riskAssessment file with
  | Some _ => default false (ReqFile.isSafe file)
  | None =>
    match outcome with
    | Some a => negb (flagged a)
    | None => false
    end
  end.

(** The requests of [ip] at the times [times], served one after the other:
    for each, whether it went through. *)
Fixpoint serve (windowMs max : Z) (ipCache : gmap string RateEntry.t)
    (ip : string) (times : list Z) : list bool :=
  match times with
  | [] => []
  | now :: times' =>
    let '(ipCache', refusal) := rateLimiter windowMs max ipCache ip now in
    bool_decide (refusal = None) :: serve windowMs max ipCache' ip times'
  end.


(** [x] is [root], or a folder that satisfies [ok] and whose parent is in
    turn [under] [root]: what a walk from [root] down through the folders
    that satisfy [ok] meets. *)
Inductive under (ok : Folder.t → Prop) (st : Store) (root : option Id)
    : option Id → Prop :=
| under_here : under ok st root root
| under_step d f :
    folders st !! d = Some f → ok f →
    under ok st root (Folder.parent f) →
    under ok st root (Some d).

(** The levels of recursion left below [root] in a tree of depth
    [bound]. *)
Definition depth_left (rank : Id → nat) (bound : nat) (root : option Id)
    : nat :=
  match root with
  | Some F => S (bound - rank F)
  | None => S (S bound)
  end.

(** What the query of [getFolderTree] asks of a folder. *)
Definition visible_to (userId : Id) (f : Folder.t) : Prop :=
  (Folder.owner f = userId
   ∨ userId ∈ SharedGrant.user <$> Folder.sharedWith f)
  ∧ Folder.isTrash f = false.

(** The ids of the nodes of a tree, parents before children. *)
Fixpoint node_ids (t : TreeNode) : list Id :=
  match t with
  | Node id _ _ _ children => id :: flat_map node_ids children
  end.

Definition tree_ids (trees : list TreeNode) : list Id :=
  flat_map node_ids trees.

(** The body of the [map] of [buildTree]. *)
Definition buildNode (fuel : nat) (folders : list (Id * Folder.t))
    (folder : Id * Folder.t) : option TreeNode :=
  match buildTree fuel folders (Some folder.1) with
  | Some children =>
    Some (Node folder.1 (Folder.name folder.2) (Folder.parent folder.2)
               (Folder.path folder.2) children)
  | None => None
  end.

(** [sample_deep] with folder 3 "D" shared with user 11 at level view,
    its parent and grandparent being shared with no one. *)
Definition sample_deep_shared : Store :=
  mkStore
    (<[3%positive :=
         Folder.mk "D" (Some 2%positive) "/A/C/" 10
                   [SharedGrant.mk 11 "view" 1 10 None] false None 0]>
       (folders sample_deep))
    (files sample_deep) (users sample_deep).

(** ** User accounts (models/user.model.js)

    The fields of the user document that signing in reads and writes; the
    storage fields of the same document are in [User.t]. Times are in
    milliseconds. *)
Module FailedLogin.
Record t := mk { ip : string; userAgent : string; timestamp : Z }.
End FailedLogin.

Module Account.
Record t := mk {
  password : string;
  passwordChangedAt : option Z;
  role : string;
  status : string;
  loginAttempts : Z;
  lockUntil : option Z;
  failedLoginAttempts : list FailedLogin.t
}.
End Account.

Module STATUS.
Definition ACTIVE := "active".
Definition SUSPENDED := "suspended".
End STATUS.

(** [userSchema.pre('save')] (l.139-160). [passwordModified] is
    [this.isModified('password')]; [hash] is what [bcrypt.hash] resolves
    to, [None] when it raises, and the save then fails ([None]). *)
Definition User_pre_save (isNew passwordModified : bool)
    (hash : option string) (now : Z) (this : Account.t)
    : option Account.t :=
  if negb passwordModified then Some this
  else
    match hash with
    | None => None
    | Some hashed =>
      Some (Account.mk hashed
              (if negb isNew then Some (now - 1000)%Z
               else Account.passwordChangedAt this)
              (Account.role this) (Account.status this)
              (Account.loginAttempts this) (Account.lockUntil this)
              (Account.failedLoginAttempts this))
    end.

(** [changedPasswordAfter] (l.168-174). [parseInt] of a quotient of
    milliseconds by 1000 drops the fraction. *)
Definition changedPasswordAfter (this : Account.t) (JWTTimestamp : Z)
    : bool :=
  match Account.passwordChangedAt this with
  | Some changedAt =>
    let changedTimestamp := (changedAt ÷ 1000)%Z in
    bool_decide (JWTTimestamp < changedTimestamp)%Z
  | None => false
  end.

(** [isAccountLocked] (l.227-235), as the truth value of what it
    returns. *)
Definition isAccountLocked (accounts : gmap Id Account.t) (userId : Id)
    (now : Z) : bool :=
  match accounts !! userId with
  | None => false
  | Some user =>
    match Account.lockUntil user with
    | Some lockUntil => bool_decide (lockUntil > now)%Z
    | None => false
    end
  end.

(** [handleFailedLogin] (l.238-267); [now] is [Date.now()]. The save runs
    the pre-save hook with the password not modified, which changes
    nothing. *)
Definition handleFailedLogin (accounts : gmap Id Account.t) (userId : Id)
    (ip userAgent : string) (now : Z) : gmap Id Account.t :=
  let MAX_LOGIN_ATTEMPTS := 5%Z in
  let LOCK_TIME := (30 * 60 * 1000)%Z in
  match accounts !! userId with
  | None => accounts
  | Some user =>
    let failedLoginAttempts :=
      Account.failedLoginAttempts user
      ++ [FailedLogin.mk ip userAgent now] in
    let loginAttempts := (Account.loginAttempts user + 1)%Z in
    let user :=
      if decide (loginAttempts >= MAX_LOGIN_ATTEMPTS)%Z then
        Account.mk (Account.password user) (Account.passwordChangedAt user)
          (Account.role user) STATUS.SUSPENDED loginAttempts
          (Some (now + LOCK_TIME)%Z) failedLoginAttempts
      else
        Account.mk (Account.password user) (Account.passwordChangedAt user)
          (Account.role user) (Account.status user) loginAttempts
          (Account.lockUntil user) failedLoginAttempts in
    <[userId := user]> accounts
  end.

(** ** Signing in to a route (auth middleware, [protect] l.168-248) *)

(** ['a b'.split(' ')]. *)
Fixpoint split_space (s : string) : list string :=
  match s with
  | EmptyString => [EmptyString]
  | String c s' =>
    if Ascii.eqb c " "%char then EmptyString :: split_space s'
    else
      match split_space s' with
      | piece :: pieces => String c piece :: pieces
      | [] => [String c EmptyString]
      end
  end.

(** Step 1: the token of the [Authorization] header when that starts with
    [Bearer], else the [jwt] cookie. *)
Definition protect_token (authorization cookie : option string)
    : option string :=
  match authorization with
  | Some header =>
    if negb (String.eqb header "") && String.prefix "Bearer" header
    then split_space header !! 1
    else cookie
  | None => cookie
  end.

(** What [jwt.verify] does with a token: it returns the payload, or it
    raises an error of one of the names that [protect] tells apart. *)
Inductive Verified :=
| Decoded (id : Id) (iat : Z)
| JsonWebTokenError
| TokenExpiredError
| OtherError.

(** The user that development mode puts into [req.user]: the id is not
    the id of a document, and there is no [role] (there is [isAdmin]). *)
Definition dev_user : ReqUser.t := ReqUser.mk None None.

(** How [protect] ends: it calls [next()] with [req.user] set, or it
    answers. *)
Inductive Protected :=
| Granted (user : ReqUser.t)
| Refused (r : Response).

(** [protect]. [development] is
    [process.env.NODE_ENV === 'development']. *)
Definition protect (development : bool)
    (authorization cookie : option string) (verify : string → Verified)
    (accounts : gmap Id Account.t) : Protected :=
  if development then Granted dev_user
  else
    match protect_token authorization cookie with
    | None =>
      Refused (Json 401 "You are not logged in! Please log in to get access.")
    | Some token =>
      if String.eqb token "" then
        Refused
          (Json 401 "You are not logged in! Please log in to get access.")
      else
        match verify token with
        | Decoded id iat =>
          match accounts !! id with
          | None =>
            Refused
              (Json 401 "The user belonging to this token no longer exists.")
          | Some currentUser =>
            if changedPasswordAfter currentUser iat then
              Refused
                (Json 401
                   "User recently changed password! Please log in again.")
            else
              Granted
                (ReqUser.mk (Some id) (Some (Account.role currentUser)))
          end
        | JsonWebTokenError =>
          Refused (Json 401 "Invalid token. Please log in again!")
        | TokenExpiredError =>
          Refused (Json 401 "Your token has expired! Please log in again.")
        | OtherError =>
          Refused (Json 500 "Something went wrong with authentication")
        end
    end.

(** [router.use(protect)] followed further down by
    [router.use(hasPermission('admin'))] (folder routes l.8 and l.137, file
    routes alike): how a request to a route below both gets on. Nothing on
    the way sets [req.doc]. *)
Definition admin_routes (development : bool)
    (authorization cookie : option string) (verify : string → Verified)
    (accounts : gmap Id Account.t) : Passage :=
  match protect development authorization cookie verify accounts with
  | Granted user => hasPermission_middleware (Some "admin") user None
  | Refused r => Answer r
  end.


(** Failed sign-ins of one user, one after the other; each is the address,
    the user agent and the time of the attempt. *)
Definition failed_entry (attempt : string * string * Z) : FailedLogin.t :=
  FailedLogin.mk attempt.1.1 attempt.1.2 attempt.2.

Fixpoint failed_logins (accounts : gmap Id Account.t) (userId : Id)
    (attempts : list (string * string * Z)) : gmap Id Account.t :=
  match attempts with
  | [] => accounts
  | attempt :: attempts' =>
    failed_logins
      (handleFailedLogin accounts userId attempt.1.1 attempt.1.2 attempt.2)
      userId attempts'
  end.

Definition sample_account : Account.t :=
  Account.mk "hash" None "user" "active" 0 None [].

Definition sample_accounts : gmap Id Account.t :=
  {[ 7%positive := sample_account ]}.

Definition sample_failures : list (string * string * Z) :=
  [("10.0.0.1", "curl", 100%Z); ("10.0.0.1", "curl", 200%Z);
   ("10.0.0.1", "curl", 300%Z); ("10.0.0.1", "curl", 400%Z)].

(** * Properties *)

(** ** Access control *)

Lemma indexOf_level (l : Level) :
  indexOf FILE_PERMISSIONS.values (level_name l) = Z.of_nat (ordinal l).
Proof. by destruct l. Qed.

Lemma find_none_of_no_grant (grants : list SharedGrant.t) (u : Id) :
  (∀ g, g ∈ grants → SharedGrant.user g ≠ u) →
  List.find (λ share, bool_decide (SharedGrant.user share = u)) grants = None.
Proof.
  induction grants as [|g grants IH]; intros Hno; [done|].
  cbn. rewrite bool_decide_eq_false_2.
  - apply IH. intros h Hh. apply Hno. by right.
  - apply Hno. by left.
Qed.

Lemma find_first_grant (grants : list SharedGrant.t) (u : Id) g :
  first_grant grants u g →
  List.find (λ share, bool_decide (SharedGrant.user share = u)) grants
  = Some g.
Proof.
  intros (before & after & -> & Hu & Hbefore).
  induction before as [|h before IH]; cbn.
  - by rewrite bool_decide_eq_true_2.
  - rewrite bool_decide_eq_false_2.
    + apply IH. intros k Hk. apply Hbefore. by right.
    + apply Hbefore. by left.
Qed.

Lemma hasPermission_owner owner grants required :
  hasPermission owner grants owner required = true.
Proof. unfold hasPermission. by rewrite decide_True. Qed.

Lemma hasPermission_no_grant owner grants u required :
  owner ≠ u →
  (∀ g, g ∈ grants → SharedGrant.user g ≠ u) →
  hasPermission owner grants u required = false.
Proof.
  intros Hne Hno. unfold hasPermission.
  rewrite decide_False by done. by rewrite find_none_of_no_grant.
Qed.

Lemma hasPermission_grant owner grants u g (l r : Level) :
  owner ≠ u →
  first_grant grants u g →
  SharedGrant.permission g = level_name l →
  hasPermission owner grants u (level_name r)
  = bool_decide (ordinal r ≤ ordinal l).
Proof.
  intros Hne Hg Hl. unfold hasPermission.
  rewrite decide_False by done.
  rewrite (find_first_grant _ _ _ Hg). cbn zeta.
  rewrite Hl, !indexOf_level.
  apply bool_decide_ext. lia.
Qed.

Lemma check_unfold (res : Resource) u required :
  check res u required
  = hasPermission (resource_owner res) (resource_sharedWith res) u required.
Proof. by destruct res. Qed.

(** C3. The permission check of a folder or a file: the owner passes every
    level; a user who is not the owner and has no entry in [sharedWith]
    fails every level; any other user passes exactly when the ordinal of
    the level granted by the first entry is at least the ordinal of the
    required level under view(0) < edit(1) < manage(2). In particular, a
    grantee with edit passes view and edit and fails manage. *)
Theorem check_by_owner_and_ordinal (res : Resource) (u : Id) (r : Level) :
  (resource_owner res = u → check res u (level_name r) = true)
  ∧ (resource_owner res ≠ u →
     (∀ g, g ∈ resource_sharedWith res → SharedGrant.user g ≠ u) →
     check res u (level_name r) = false)
  ∧ (∀ g l, resource_owner res ≠ u →
     first_grant (resource_sharedWith res) u g →
     SharedGrant.permission g = level_name l →
     check res u (level_name r) = bool_decide (ordinal r ≤ ordinal l))
  ∧ (∀ g, resource_owner res ≠ u →
     first_grant (resource_sharedWith res) u g →
     SharedGrant.permission g = level_name edit →
     check res u (level_name view) = true
     ∧ check res u (level_name edit) = true
     ∧ check res u (level_name manage) = false).
Proof.
  rewrite !check_unfold. repeat split.
  - intros <-. apply hasPermission_owner.
  - intros. by apply hasPermission_no_grant.
  - intros g l Hne Hg Hl.
    by rewrite (hasPermission_grant _ _ _ g l r).
  - by rewrite (hasPermission_grant _ _ _ g edit view).
  - by rewrite (hasPermission_grant _ _ _ g edit edit).
  - by rewrite (hasPermission_grant _ _ _ g edit manage).
Qed.

(** ** Moving a folder under itself or under one of its descendants *)

Lemma isDescendantFolder_finds_ancestor st a b :
  descendant_of st a b →
  ∃ n, ∀ fuel, n ≤ fuel → isDescendantFolder fuel st a (Some b) = Some true.
Proof.
  induction 1 as [b f Hb Hpar | b f p Hb Hpar _ [n IH]].
  - exists 1. intros [|fuel] Hle; [lia|].
    cbn. rewrite Hb, Hpar. by rewrite decide_True.
  - exists (S n). intros [|fuel] Hle; [lia|].
    cbn. rewrite Hb, Hpar. destruct (decide (p = a)); [done|].
    apply IH. lia.
Qed.

(** C1. Moving folder [A] into [B], where [B] is [A] or a descendant of
    [A], never succeeds and leaves the database as it was: once the caller
    may edit both folders the answer is the circular-reference error, and
    otherwise it is a refusal. The walk up from [B] ends as soon as the
    fuel covers the distance from [B] to [A]. *)
Theorem moveFolder_circular_rejected st userId A B folderA folderB :
  folders st !! A = Some folderA →
  folders st !! B = Some folderB →
  B = A ∨ descendant_of st A B →
  ∃ n, ∀ fuel, n ≤ fuel →
    ∃ resp,
      moveFolder fuel st userId A (Some B) = Some (resp, st)
      ∧ (folder_allows folderA userId FILE_PERMISSIONS.EDIT = true →
         folder_allows folderB userId FILE_PERMISSIONS.EDIT = true →
         CircularReferenceError resp)
      ∧ (folder_allows folderA userId FILE_PERMISSIONS.EDIT = false
         ∨ folder_allows folderB userId FILE_PERMISSIONS.EDIT = false →
         PermissionDenied resp).
Proof.
  intros HA HB Hcirc.
  assert (∃ n, ∀ fuel, n ≤ fuel →
            A = B ∨ isDescendantFolder fuel st A (Some B) = Some true)
    as [n Hn].
  { destruct Hcirc as [->|Hdesc].
    - exists 0. by left.
    - destruct (isDescendantFolder_finds_ancestor _ _ _ Hdesc) as [n Hn].
      exists n. intros fuel Hle. right. by apply Hn. }
  exists n. intros fuel Hle. unfold moveFolder. rewrite HA.
  destruct (folder_allows folderA userId FILE_PERMISSIONS.EDIT) eqn:HpA; cbn.
  2:{ eexists. split; [done|]. split; [done|]. intros _. by eexists. }
  rewrite HB.
  destruct (folder_allows folderB userId FILE_PERMISSIONS.EDIT) eqn:HpB; cbn.
  2:{ eexists. split; [done|]. split; [done|]. intros _. by eexists. }
  destruct (decide (A = B)) as [->|Hne].
  { eexists. split; [done|]. split; [by left|]. by intros [|]. }
  destruct (Hn fuel Hle) as [|Hwalk]; [done|]. rewrite Hwalk.
  eexists. split; [done|]. split; [by right|]. by intros [|].
Qed.

Lemma moveFolder_circular_rejected_witness :
  ∃ n, ∀ fuel, n ≤ fuel →
    ∃ resp,
      moveFolder fuel sample_tree 10 1 (Some 2%positive)
      = Some (resp, sample_tree)
      ∧ (folder_allows sample_A 10 FILE_PERMISSIONS.EDIT = true →
         folder_allows sample_C 10 FILE_PERMISSIONS.EDIT = true →
         CircularReferenceError resp)
      ∧ (folder_allows sample_A 10 FILE_PERMISSIONS.EDIT = false
         ∨ folder_allows sample_C 10 FILE_PERMISSIONS.EDIT = false →
         PermissionDenied resp).
Proof.
  apply (moveFolder_circular_rejected sample_tree 10 1 2 sample_A sample_C).
  - reflexivity.
  - reflexivity.
  - right. by apply (descendant_child _ _ _ sample_C).
Defined.

(** ** The path invariant under a move *)

(** C2. A move that completes can leave a child of the moved folder with a
    path that is not [parent.path + parent.name + "/"]. Folder "A" (root
    level, path "/") has the child "C" with path "/A/": the invariant
    holds. Moving "A" to the root completes with 200 and rewrites the path
    of "C" to "/C/", built from the child's own name, where the invariant
    asks for "/A/". *)
Theorem moveFolder_breaks_path_invariant :
  path_invariant sample_tree
  ∧ ∃ st' c,
      moveFolder 2 sample_tree 10 1 None
      = Some (Json 200 "Folder moved to root", st')
      ∧ folders st' !! 2%positive = Some c
      ∧ Folder.parent c = Some 1%positive
      ∧ Folder.path c = "/C/"
      ∧ folders st' !! 1%positive = Some sample_A
      ∧ ¬ path_invariant st'.
Proof.
  split.
  - apply (bool_decide_unpack (path_invariant sample_tree)). by vm_compute.
  - eexists _, _. split; [by vm_compute|].
    split; [by vm_compute|]. split; [done|]. split; [done|].
    split; [by vm_compute|].
    intros Hinv. specialize (Hinv 2%positive _ eq_refl).
    by vm_compute in Hinv.
Qed.

(** ** Moving a folder to the root *)

Lemma Folder_save_parent_changed st id orig this :
  Folder.parent orig ≠ Folder.parent this →
  Folder_save st false id orig this = Throw st.
Proof.
  intros Hne. unfold Folder_save, Folder_pre_save.
  by rewrite decide_False.
Qed.

Lemma moveFolder_to_root_raises fuel st userId id folder p :
  folders st !! id = Some folder →
  folder_allows folder userId FILE_PERMISSIONS.EDIT = true →
  Folder.parent folder = Some p →
  moveFolder fuel st userId id None
  = Some (Json 500 "Error moving folder", Folder_inc_folderCount st p (-1)).
Proof.
  intros Hid Hallow Hpar. unfold moveFolder.
  rewrite Hid, Hallow, Hpar. cbn.
  rewrite Folder_save_parent_changed; [done|].
  cbn. by rewrite Hpar.
Qed.

(** C10. Moving to the root a folder that has a parent does not succeed.
    Folder "C" lives under "A"; its owner asks for a move to the root. The
    controller decrements the [folderCount] of "A" (1 becomes 0) and then
    saves "C" with [parent = null]; the pre-save hook of the folder model
    sees the modified parent and calls the model's [updateDescendantPaths]
    as a plain function, which raises, so the save is rejected and the
    answer is the 500 of the [catch]: "C" keeps its parent and its path
    "/A/", while "A" has lost one from its count. *)
Theorem moveFolder_to_root_of_child_fails (fuel : nat) :
  ∃ st',
    moveFolder fuel sample_tree 10 2 None
    = Some (Json 500 "Error moving folder", st')
    ∧ folders st' !! 2%positive = Some sample_C
    ∧ folders st' !! 1%positive = Some (Folder.set_folderCount 0 sample_A).
Proof.
  eexists. split.
  - by apply (moveFolder_to_root_raises fuel sample_tree 10 2 sample_C 1).
  - split; by vm_compute.
Qed.

(** ** Version history *)

Lemma pick_same {A} `{EqDecision A} (a b : A) : pick a b a = b.
Proof. unfold pick. by case_decide. Qed.

Lemma File_merge_same orig this : File_merge orig this orig = this.
Proof. destruct this. unfold File_merge. cbn. by rewrite !pick_same. Qed.

Lemma Folder_merge_same orig this : Folder_merge orig this orig = this.
Proof. destruct this. unfold Folder_merge. cbn. by rewrite !pick_same. Qed.

(** C4. Replacing the stored content of file 5 (key "k1", 10 bytes,
    text/plain, version 1, empty history) by new content (key "k2", 20
    bytes, image/png) and saving appends one history entry and moves
    [currentVersion] to 2, but the entry holds the new locator, size and
    type ("k2", 20, image/png) under version number 1: the previous
    locator "k1", its size and its type are recorded nowhere. *)
Theorem File_save_records_new_locator :
  ∃ st' f',
    File_save sample_files false 5 sample_file
      (File.mk "a.txt" "image/png" 20 10 None ACTIVE None
               (Some (Storage.mk "k2" "u2" "e2")) [] 1 [] [] None None None)
      7
    = Ok st'
    ∧ files st' !! 5%positive = Some f'
    ∧ File.versions f' = [Version.mk 1 "k2" 20 "image/png" 7 10]
    ∧ File.currentVersion f' = 2%Z
    ∧ Storage.key <$> File.storage f' = Some "k2".
Proof. eexists _, _. split; [by vm_compute|]. by vm_compute. Qed.

(** ** The risk gate of an upload *)

Lemma uploadFile_past_size maxFileSize st f userId folderId assessment
    uploaded newId now :
  (Upload.size f ≤ maxFileSize)%Z →
  uploadFile maxFileSize st (Some f) userId folderId assessment uploaded
             newId now
  = match assessment with
    | Some a =>
      if flagged a then blocked else (Json 500 "Error uploading file", [])
    | None => (Json 500 "Error uploading file", [])
    end.
Proof.
  intros Hsize. unfold uploadFile, blocked, flagged.
  rewrite decide_False by lia.
  destruct assessment as [a|]; [|done].
  by destruct (Risk.isMalicious a || bool_decide (Risk.riskLevel a = "high")).
Qed.

Lemma uploadFile_writes_nothing maxFileSize st file userId folderId
    assessment uploaded newId now :
  (uploadFile maxFileSize st file userId folderId assessment uploaded newId
              now).2 = [].
Proof.
  unfold uploadFile. destruct file as [f|]; [|done].
  destruct (decide _); [done|].
  destruct assessment as [a|]; [|done].
  by destruct (Risk.isMalicious a || bool_decide (Risk.riskLevel a = "high")).
Qed.

(** ** Upload under a failed risk assessment *)

(** C7. An upload whose risk assessment fails. Whether the call of the
    scoring service raises, its request to the model fails or times out,
    or the mock scorer cannot read the file, the verdict in place after
    the assessment is the most conservative one: score 100, level high,
    malicious. The upload writes nothing, so no file record exists for it,
    active or not, and it is never answered 201: past the size check it is
    answered 403 when the service returned that verdict, and 500 when the
    call raised (the controller then goes on to [User.findById], which
    raises); a missing file and a file over the size limit are answered
    400 before the assessment. *)
Theorem uploadFile_failed_assessment_not_admitted maxFileSize st file userId
    folderId assessment uploaded newId now :
  assessment_failed assessment →
  let verdict := applied_verdict assessment in
  let outcome :=
    uploadFile maxFileSize st file userId folderId assessment uploaded newId
               now in
  Risk.riskScore verdict = 100%Z
  ∧ Risk.riskLevel verdict = "high"
  ∧ Risk.isMalicious verdict = true
  ∧ outcome.2 = []
  ∧ final_store st outcome.2 = st
  ∧ (outcome.1 = Json 400 "No file uploaded"
     ∨ outcome.1 = Json 400 "File size exceeds the limit"
     ∨ outcome.1 = Json 403 "File blocked due to security concerns"
     ∨ outcome.1 = Json 500 "Error uploading file")
  ∧ (∀ f, file = Some f → (Upload.size f ≤ maxFileSize)%Z →
       outcome
       = match assessment with
         | Some _ => blocked
         | None => (Json 500 "Error uploading file", [])
         end).
Proof.
  intros Hfailed verdict outcome.
  assert (Risk.riskScore verdict = 100%Z ∧ Risk.riskLevel verdict = "high"
          ∧ Risk.isMalicious verdict = true) as (Hscore & Hlevel & Hmal).
  { unfold verdict. by destruct Hfailed. }
  assert (∀ a, assessment = Some a → flagged a = true) as Hflag.
  { intros a Ha. unfold verdict, applied_verdict in Hmal.
    rewrite Ha in Hmal. cbn in Hmal. unfold flagged. by rewrite Hmal. }
  assert (outcome.2 = []) as Hnone by apply uploadFile_writes_nothing.
  split; [done|]. split; [done|]. split; [done|]. split; [done|].
  split; [by rewrite Hnone|]. split.
  - unfold outcome, uploadFile. destruct file as [f|]; [|by left].
    destruct (decide _); [by right; left|].
    destruct assessment as [a|]; [|by right; right; right].
    specialize (Hflag a eq_refl). unfold flagged in Hflag. rewrite Hflag.
    by right; right; left.
  - intros f -> Hsize. unfold outcome.
    rewrite uploadFile_past_size by done.
    destruct assessment as [a|]; [|done]. by rewrite (Hflag a).
Qed.

Lemma uploadFile_failed_assessment_not_admitted_witness :
  uploadFile 1000 sample_files
             (Some (Upload.mk "x.bin" "application/octet-stream" 10))
             10 None None (Some (Storage.mk "k9" "u9" "e9")) 6 7
  = (Json 500 "Error uploading file", [])
  ∧ uploadFile 1000 sample_files
               (Some (Upload.mk "x.bin" "application/octet-stream" 10))
               10 None (Some (calculateRiskScore None))
               (Some (Storage.mk "k9" "u9" "e9")) 6 7
    = blocked.
Proof.
  destruct (uploadFile_failed_assessment_not_admitted 1000 sample_files
              (Some (Upload.mk "x.bin" "application/octet-stream" 10))
              10 None None (Some (Storage.mk "k9" "u9" "e9")) 6 7
              failed_call) as (_ & _ & _ & _ & _ & _ & Hraised).
  destruct (uploadFile_failed_assessment_not_admitted 1000 sample_files
              (Some (Upload.mk "x.bin" "application/octet-stream" 10))
              10 None (Some (calculateRiskScore None))
              (Some (Storage.mk "k9" "u9" "e9")) 6 7
              failed_request) as (_ & _ & _ & _ & _ & _ & Hfailed).
  split.
  - apply (Hraised (Upload.mk "x.bin" "application/octet-stream" 10));
      [reflexivity|cbn; lia].
  - apply (Hfailed (Upload.mk "x.bin" "application/octet-stream" 10));
      [reflexivity|cbn; lia].
Defined.

(** ** Upload of a file flagged by the risk assessment *)

(** C6, at the failing input. User 10 uploads a 10-byte file that the
    service assesses as malicious: from the answer (score 70, malicious) of
    the model the service makes the verdict score 70, level high,
    malicious. The upload is answered 403 and writes nothing: the database
    holds no record for it afterwards, and no quarantined record at all.
    The same happens for the verdict score 85, level high, malicious. A
    download of the file is answered 500. *)
Theorem uploadFile_flagged_leaves_no_record :
  calculateRiskScore (Some (Some (AiResponse.mk (Some 70%Z) (Some true))))
  = Risk.mk 70 "high" true false
  ∧ uploadFile 1000 sample_files
      (Some (Upload.mk "x.bin" "application/octet-stream" 10)) 10 None
      (Some (calculateRiskScore
               (Some (Some (AiResponse.mk (Some 70%Z) (Some true))))))
      (Some (Storage.mk "k9" "u9" "e9")) 6 7
    = (Json 403 "File blocked due to security concerns", [])
  ∧ uploadFile 1000 sample_files
      (Some (Upload.mk "x.bin" "application/octet-stream" 10)) 10 None
      (Some (Risk.mk 85 "high" true false))
      (Some (Storage.mk "k9" "u9" "e9")) 6 7
    = (Json 403 "File blocked due to security concerns", [])
  ∧ files (final_store sample_files []) !! 6%positive = None
  ∧ (¬ ∃ id f, files (final_store sample_files []) !! id = Some f
               ∧ File.status f = QUARANTINED)
  ∧ downloadFile sample_files 10 6 (Some "signed") 8
    = (Json 500 "Error downloading file", sample_files).
Proof.
  split; [by vm_compute|]. split; [by vm_compute|].
  split; [by vm_compute|]. split; [by vm_compute|]. split; [|done].
  intros (id & f & Hf & Hq). cbn in Hf.
  apply lookup_insert_Some in Hf as [[_ <-]|[_ Hf]]; [done|].
  by rewrite lookup_empty in Hf.
Qed.

(** ** Quarantine and restore *)

(** C5, at the failing input. File 5 is active and stored, and the
    relocation in storage would succeed: [quarantineFile] is answered 500
    and the file stays active. Where file 5 is quarantined already,
    [quarantineFile] is answered 500 too, and so is [restoreFile]; the
    database is as before each time. *)
Theorem quarantineFile_restoreFile_answer_500 :
  File.status <$> files sample_files !! 5%positive = Some ACTIVE
  ∧ quarantineFile sample_files 5 None
      (Some (Storage.mk "quarantine/k1" "qu" "")) 7
    = (Json 500 "Error quarantining file", sample_files)
  ∧ File.status <$> files sample_quarantined_files !! 5%positive
    = Some QUARANTINED
  ∧ quarantineFile sample_quarantined_files 5 None
      (Some (Storage.mk "quarantine/k1" "qu" "")) 7
    = (Json 500 "Error quarantining file", sample_quarantined_files)
  ∧ restoreFile sample_quarantined_files 5 None
      (Some (Storage.mk "k1" "u1" "")) 7
    = (Json 500 "Error restoring file", sample_quarantined_files).
Proof. repeat split; by vm_compute. Qed.

(** ** Sharing *)

Lemma findIndex_None {A} (p : A → bool) (l : list A) :
  findIndex p l = None → ∀ x, x ∈ l → p x = false.
Proof.
  induction l as [|a l IH]; cbn; intros Hnone x Hx.
  - by apply elem_of_nil in Hx.
  - destruct (p a) eqn:Hpa; [done|].
    destruct (findIndex p l); [done|].
    apply elem_of_cons in Hx as [->|Hx]; [done|]. by apply IH.
Qed.

Lemma findIndex_Some {A} (p : A → bool) (l : list A) i :
  findIndex p l = Some i →
  ∃ before g after,
    l = before ++ g :: after ∧ length before = i ∧ p g = true
    ∧ ∀ h, h ∈ before → p h = false.
Proof.
  revert i. induction l as [|a l IH]; cbn; intros i Hi; [done|].
  destruct (p a) eqn:Hpa.
  - injection Hi as <-. exists [], a, l. repeat split; [done|].
    intros h Hh. by apply elem_of_nil in Hh.
  - destruct (findIndex p l) as [k|]; [|done]. injection Hi as <-.
    destruct (IH k eq_refl) as (before & g & after & -> & <- & Hg & Hb).
    exists (a :: before), g, after. repeat split; [done|].
    intros h Hh. apply elem_of_cons in Hh as [->|Hh]; [done|]. by apply Hb.
Qed.

Lemma Folder_save_existing st id folder this :
  folders st !! id = Some folder →
  Folder.parent folder = Folder.parent this →
  Folder_save st false id folder this
  = Ok (with_folders (<[id := this]> (folders st)) st).
Proof.
  intros Hf Hpar. unfold Folder_save, Folder_pre_save.
  rewrite decide_True by done. rewrite Hf. by rewrite Folder_merge_same.
Qed.

Lemma includes_values_level (l : Level) :
  includes FILE_PERMISSIONS.values (level_name l) = true.
Proof. by destruct l. Qed.

(** C9, counterexample. [manage] is one of the permission levels, yet
    [shareFile] refuses it with 400. And the owner of folder "A" who shares
    it at level view with user 11, a user of the database holding no grant
    on it, is answered 500: no entry is added. *)
Lemma shareFile_rejects_manage_and_no_grant_written :
  includes FILE_PERMISSIONS.values "manage" = true
  ∧ shareFile sample_files 10 5 11 (Some "manage") None 7
    = (Json 400 "Invalid permission. Must be view or edit", sample_files)
  ∧ is_Some (users sample_tree !! 11%positive)
  ∧ Folder.owner sample_A = 10%positive
  ∧ shareFolder sample_tree 10 1 11 (Some "view") None 7
    = (Json 500 "Error sharing folder", sample_tree).
Proof.
  split; [by vm_compute|]. split; [by vm_compute|].
  split; [by eexists|]. split; by vm_compute.
Qed.

(** C9, as the code has it. [shareFolder] asks the sharer to own the
    folder or to hold manage on it (403 otherwise), refuses sharing with
    oneself (400), and takes each of view, edit and manage as a level, any
    other value being refused with 400. [shareFile] refuses sharing with
    oneself (400) and takes view and edit as levels only: manage, like any
    other value, is refused with 400. None of the two ever changes the
    database. *)
Theorem share_checks st sharer id grantee permission message now :
  (∀ folder (level : Level),
     folders st !! id = Some folder →
     (folder_allows folder sharer FILE_PERMISSIONS.MANAGE = false →
      shareFolder st sharer id grantee (Some (level_name level)) message now
      = (Json 403 "You do not have permission to share this folder", st))
     ∧ (folder_allows folder sharer FILE_PERMISSIONS.MANAGE = true →
        shareFolder st sharer id sharer (Some (level_name level)) message
                    now
        = (Json 400 "Cannot share with yourself", st)))
  ∧ ((∀ level : Level, permission ≠ Some (level_name level)) →
     shareFolder st sharer id grantee permission message now
     = (Json 400 "Invalid permission. Must be one of: view, edit, manage",
        st))
  ∧ (∀ level : Level,
       shareFolder st sharer id grantee (Some (level_name level)) message
                   now
       ≠ (Json 400 "Invalid permission. Must be one of: view, edit, manage",
          st))
  ∧ (permission = None ∨ permission = Some "view"
     ∨ permission = Some "edit" →
     shareFile st sharer id sharer permission message now
     = (Json 400 "Cannot share file with yourself", st))
  ∧ (permission ≠ None → permission ≠ Some "view" →
     permission ≠ Some "edit" →
     shareFile st sharer id grantee permission message now
     = (Json 400 "Invalid permission. Must be view or edit", st))
  ∧ shareFile st sharer id grantee (Some "manage") message now
    = (Json 400 "Invalid permission. Must be view or edit", st)
  ∧ (shareFolder st sharer id grantee permission message now).2 = st
  ∧ (shareFile st sharer id grantee permission message now).2 = st.
Proof.
  split; [|split; [|split; [|split; [|split; [|split; [|split]]]]]].
  - intros folder level Hf. unfold shareFolder.
    rewrite includes_values_level, Hf. cbn. split.
    + by intros ->.
    + intros ->. cbn. by rewrite decide_True.
  - intros Hlevels. unfold shareFolder.
    destruct permission as [p|]; [|done].
    destruct (includes FILE_PERMISSIONS.values p) eqn:Hin; [|done].
    exfalso. unfold includes in Hin. apply bool_decide_eq_true in Hin.
    apply elem_of_cons in Hin as [->|Hin]; [by apply (Hlevels view)|].
    apply elem_of_cons in Hin as [->|Hin]; [by apply (Hlevels edit)|].
    apply list_elem_of_singleton in Hin as ->. by apply (Hlevels manage).
  - intros level. unfold shareFolder. rewrite includes_values_level. cbn.
    destruct (folders st !! id) as [folder|]; [|done].
    destruct (folder_allows folder sharer FILE_PERMISSIONS.MANAGE); cbn;
      [|done].
    by destruct (decide (grantee = sharer)).
  - unfold shareFile.
    intros [->|[->| ->]]; cbn; by rewrite decide_True.
  - intros Hn Hv He. unfold shareFile.
    destruct permission as [p|]; [|done]. cbn.
    destruct (includes ["view"; "edit"] p) eqn:Hin; [|done].
    exfalso. unfold includes in Hin. apply bool_decide_eq_true in Hin.
    apply elem_of_cons in Hin as [->|Hin]; [done|].
    by apply list_elem_of_singleton in Hin as ->.
  - done.
  - unfold shareFolder. destruct permission as [p|]; [|done].
    destruct (includes _ p); [|done]. cbn.
    destruct (folders st !! id) as [folder|]; [|done].
    destruct (folder_allows _ _ _); [|done]. cbn.
    by destruct (decide (grantee = sharer)).
  - unfold shareFile. destruct (includes _ _); [|done]. cbn.
    by destruct (decide (sharer = grantee)).
Qed.

(** ** Permanent deletion of a folder *)

Lemma elem_of_find_by_parent st p c f :
  (c, f) ∈ Folder_find_by_parent st p
  ↔ folders st !! c = Some f ∧ Folder.parent f = Some p.
Proof.
  unfold Folder_find_by_parent.
  rewrite list_elem_of_filter, elem_of_map_to_list. cbn. tauto.
Qed.

Lemma ranked_parent st rank bound c f p :
  ranked st rank bound →
  folders st !! c = Some f → Folder.parent f = Some p →
  rank p < rank c ≤ bound.
Proof.
  intros Hr Hc Hp. destruct (Hr c f Hc) as [Hle Hlt].
  by rewrite Hp in Hlt.
Qed.

Lemma descendant_of_rank st rank bound a d :
  ranked st rank bound → descendant_of st a d → rank a < rank d.
Proof.
  intros Hr. induction 1 as [b f Hb Hp | b f p Hb Hp _ IH].
  - by eapply ranked_parent.
  - pose proof (ranked_parent _ _ _ _ _ _ Hr Hb Hp). lia.
Qed.

(** C8, counterexample. The owner asks for the permanent deletion of
    folder "A": the answer is 500 and the database is as before, with "A",
    its subfolder "C" and the count of "A" in place. And once folder "C" is
    gone from the collection, the permanent deletion of its id is answered
    with the error 404. *)
Lemma deleteFolder_permanent_fails_and_again_not_found :
  deleteFolder sample_tree 10 1 true
  = (Json 500 "Error deleting folder", sample_tree)
  ∧ is_Some (folders sample_tree !! 2%positive)
  ∧ deleteFolder (Folder_findByIdAndDelete sample_tree 2) 10 2 true
    = (Json 404 "Folder not found", Folder_findByIdAndDelete sample_tree 2).
Proof.
  split; [by vm_compute|]. split; [by eexists|]. by vm_compute.
Qed.

(** C8, as the code has it. The permanent deletion of an id that no
    folder of the database holds, such as the id of a folder that was
    deleted before, is answered with the error 404 and changes nothing. *)
Theorem deleteFolder_permanent_of_absent_id st userId id :
  folders st !! id = None →
  deleteFolder st userId id true = (Json 404 "Folder not found", st).
Proof. intros Hid. unfold deleteFolder. by rewrite Hid. Qed.

Lemma deleteFolder_permanent_of_absent_id_witness :
  deleteFolder (Folder_findByIdAndDelete sample_tree 1) 10 1 true
  = (Json 404 "Folder not found", Folder_findByIdAndDelete sample_tree 1).
Proof.
  apply (deleteFolder_permanent_of_absent_id
           (Folder_findByIdAndDelete sample_tree 1) 10 1).
  reflexivity.
Defined.

(** ** Creation under a root-level folder *)

(** With the pre-save hook, a folder created under the root-level folder
    "A" ends with the path "/A" (the hook replaces the path the controller
    computed, "/A/", by [fullPath] of the parent), and the [folderCount] of
    "A" has grown by two: once in the controller, once in the hook. *)
Lemma createFolder_under_root_level_parent :
  ∃ st' b a,
    createFolder sample_tree 10 "B" (Some 1%positive) 3
    = (Json 201 "", st')
    ∧ folders st' !! 3%positive = Some b
    ∧ Folder.parent b = Some 1%positive
    ∧ Folder.path b = "/A"
    ∧ folders st' !! 1%positive = Some a
    ∧ Folder.path a = "/" ∧ Folder.name a = "A"
    ∧ Folder.folderCount a = 3%Z
    ∧ ¬ path_invariant st'.
Proof.
  eexists _, _, _. split; [by vm_compute|].
  split; [by vm_compute|]. split; [done|]. split; [done|].
  split; [by vm_compute|]. split; [done|]. split; [done|]. split; [done|].
  intros Hinv. specialize (Hinv 3%positive _ eq_refl).
  by vm_compute in Hinv.
Qed.

(** ** Further properties *)

(** X3. The pre-save hook of a file only ever appends to the version
    history: the entries already there stay, in place and unchanged, at
    most one entry is added, and [currentVersion] grows by the number of
    entries added. *)
Theorem File_pre_save_appends_only isNew orig this now :
  ∃ added,
    File.versions (File_pre_save isNew orig this now)
    = File.versions this ++ added
    ∧ length added ≤ 1
    ∧ File.currentVersion (File_pre_save isNew orig this now)
      = (File.currentVersion this + Z.of_nat (length added))%Z.
Proof.
  unfold File_pre_save.
  destruct (storage_key_modified orig this && negb isNew);
    [destruct (File.storage this) as [s|];
       [destruct (decide (Storage.key s = ""))|]|].
  all: try (exists []; rewrite app_nil_r; cbn; split; [done|];
            split; [lia|]; lia).
  eexists [_]. cbn. split; [done|]. split; [lia|]. done.
Qed.

(** An answer [true] of [isDescendantFolder] is given only for a
    descendant. *)
Lemma isDescendantFolder_true_sound fuel st a b :
  isDescendantFolder fuel st a (Some b) = Some true → descendant_of st a b.
Proof.
  revert b. induction fuel as [|fuel IH]; intros b Hrun; [done|].
  cbn in Hrun. destruct (folders st !! b) as [f|] eqn:Hb; [|done].
  destruct (Folder.parent f) as [p|] eqn:Hp.
  - destruct (decide (p = a)) as [->|Hne].
    + by eapply descendant_child.
    + eapply descendant_step; [done..|]. by apply IH.
  - by destruct fuel.
Qed.

Lemma isDescendantFolder_returns rank bound st a fuel :
  ranked st rank bound →
  ∀ b, rank b < fuel → is_Some (isDescendantFolder fuel st a (Some b)).
Proof.
  intros Hr. induction fuel as [|fuel IH]; intros b Hfuel; [lia|].
  cbn. destruct (folders st !! b) as [f|] eqn:Hb; [|by eexists].
  destruct (Folder.parent f) as [p|] eqn:Hp.
  - destruct (decide (p = a)); [by eexists|].
    apply IH. pose proof (ranked_parent _ _ _ _ _ _ Hr Hb Hp). lia.
  - destruct fuel; by eexists.
Qed.

(** X2. The walk of [isDescendantFolder] is exact on an acyclic tree: it
    returns once the fuel exceeds the depth of the folder it starts from,
    and its answer is [true] exactly for a descendant. *)
Theorem isDescendantFolder_exact st rank bound a b fuel :
  ranked st rank bound →
  rank b < fuel →
  ∃ answer,
    isDescendantFolder fuel st a (Some b) = Some answer
    ∧ (answer = true ↔ descendant_of st a b).
Proof.
  intros Hr Hfuel.
  destruct (isDescendantFolder_returns rank bound st a fuel Hr b Hfuel)
    as [answer Hrun].
  exists answer. split; [done|]. split.
  - intros ->. by eapply isDescendantFolder_true_sound.
  - intros Hdesc.
    destruct (isDescendantFolder_finds_ancestor _ _ _ Hdesc) as [n Hn].
    assert (∀ k m r, isDescendantFolder k st a (Some b) = Some r →
                     k ≤ m → isDescendantFolder m st a (Some b) = Some r)
      as Hmono.
    { clear. intros k. revert b. induction k as [|k IH]; intros b m r Hk Hle;
        [done|].
      destruct m as [|m]; [lia|]. cbn in *.
      destruct (folders st !! b) as [f|]; [|done].
      destruct (Folder.parent f) as [p|].
      - destruct (decide (p = a)); [done|]. apply IH; [done|lia].
      - destruct k, m; done. }
    pose proof (Hn (max n fuel) (Nat.le_max_l _ _)) as Htrue.
    pose proof (Hmono fuel (max n fuel) answer Hrun (Nat.le_max_r _ _)).
    congruence.
Qed.

Lemma isDescendantFolder_exact_witness :
  ∃ answer,
    isDescendantFolder 2 sample_tree 1 (Some 2%positive) = Some answer
    ∧ (answer = true ↔ descendant_of sample_tree 1 2).
Proof.
  apply (isDescendantFolder_exact sample_tree sample_rank 1 1 2 2).
  - apply (bool_decide_unpack (ranked sample_tree sample_rank 1)).
    vm_compute. reflexivity.
  - vm_compute. lia.
Defined.

Lemma updateDescendantPaths_unfold fuel st parentId parentPath :
  updateDescendantPaths (S fuel) st parentId parentPath
  = foldl (repath_child fuel parentPath) (Some (Ok st))
          (Folder_find_by_parent st parentId).
Proof. reflexivity. Qed.

Lemma same_shape_refl st : same_shape st st.
Proof. by split. Qed.

Lemma same_shape_trans st s t :
  same_shape st s → same_shape s t → same_shape st t.
Proof.
  intros (Hf & Hfi & Hu) (Hf' & Hfi' & Hu'). split; [|split]; [|congruence..].
  intros d. by rewrite Hf', Hf.
Qed.

Lemma ranked_same_shape st s rank bound :
  ranked st rank bound → same_shape st s → ranked s rank bound.
Proof.
  intros Hr [Hshape _] d f Hd. specialize (Hshape d). rewrite Hd in Hshape.
  destruct (folders st !! d) as [f0|] eqn:Hd0; [|done].
  injection Hshape as Hp. destruct (Hr d f0 Hd0) as [Hle Hlt].
  split; [done|]. by rewrite Hp.
Qed.

Lemma pick_unchanged {A} `{EqDecision A} (a s : A) : pick a a s = s.
Proof. unfold pick. by rewrite decide_True. Qed.

(** Saving a new path keeps the shape of the tree. *)
Lemma Folder_save_path st c orig stored newPath :
  folders st !! c = Some stored →
  ∃ st',
    Folder_save st false c orig (Folder.set_path newPath orig) = Ok st'
    ∧ same_shape st st'
    ∧ ∀ d, d ≠ c → folders st' !! d = folders st !! d.
Proof.
  intros Hc. unfold Folder_save, Folder_pre_save.
  rewrite decide_True by done. rewrite Hc. eexists. split; [done|].
  split; [split; [|done]|].
  - intros d. cbn. destruct (decide (d = c)) as [->|Hne].
    + rewrite lookup_insert_eq, Hc. cbn. by rewrite pick_unchanged.
    + by rewrite lookup_insert_ne.
  - intros d Hne. cbn. by rewrite lookup_insert_ne.
Qed.

Lemma fold_repath_returns rank bound fuel P parentPath st :
  (∀ s c path, ranked s rank bound → rank P < rank c ≤ bound →
     ∃ s', updateDescendantPaths fuel s c path = Some (Ok s')
           ∧ same_shape s s'
           ∧ ∀ d, rank d ≤ rank c → folders s' !! d = folders s !! d) →
  ranked st rank bound →
  ∀ cs s0,
    (∀ c fc, (c, fc) ∈ cs →
             is_Some (folders st !! c) ∧ rank P < rank c ≤ bound) →
    same_shape st s0 →
    ∃ s2,
      foldl (repath_child fuel parentPath) (Some (Ok s0)) cs = Some (Ok s2)
      ∧ same_shape st s2
      ∧ ∀ d, rank d ≤ rank P → folders s2 !! d = folders s0 !! d.
Proof.
  intros IH Hr cs. induction cs as [|[c fc] cs IHcs]; intros s0 Hcs Hs0.
  - by exists s0.
  - destruct (Hcs c fc) as [[f0 Hc0] Hrank]; [apply elem_of_cons; by left|].
    assert (∀ c' fc', (c', fc') ∈ cs →
              is_Some (folders st !! c') ∧ rank P < rank c' ≤ bound) as Hcs'.
    { intros c' fc' Hin. apply (Hcs c' fc'). apply elem_of_cons. by right. }
    cbn. destruct (decide (Folder.path fc
                           = parentPath +:+ Folder.name fc +:+ "/")).
    { by apply IHcs. }
    assert (is_Some (folders s0 !! c)) as [stored Hstored].
    { destruct Hs0 as [Hshape _]. specialize (Hshape c).
      rewrite Hc0 in Hshape. by destruct (folders s0 !! c); [eexists|]. }
    destruct (Folder_save_path s0 c fc stored
                (parentPath +:+ Folder.name fc +:+ "/") Hstored)
      as (s1 & -> & Hs1 & Hframe1).
    destruct (IH s1 c (parentPath +:+ Folder.name fc +:+ "/"))
      as (s1' & -> & Hs1' & Hframe1'); [|done|].
    { eapply ranked_same_shape; [done|]. by eapply same_shape_trans. }
    destruct (IHcs s1' Hcs') as (s2 & -> & Hs2 & Hframe2).
    { eapply same_shape_trans; [done|]. by eapply same_shape_trans. }
    exists s2. split; [done|]. split; [done|].
    intros d Hd. rewrite Hframe2 by done. rewrite Hframe1' by lia.
    apply Hframe1. intros ->. lia.
Qed.

(** On an acyclic tree, [updateDescendantPaths] returns without raising,
    keeps the shape of the tree and leaves alone every folder that is not
    deeper than the one it starts from. *)
Lemma updateDescendantPaths_returns rank bound fuel :
  ∀ st P path,
    ranked st rank bound → S (bound - rank P) ≤ fuel →
    ∃ st', updateDescendantPaths fuel st P path = Some (Ok st')
           ∧ same_shape st st'
           ∧ ∀ d, rank d ≤ rank P → folders st' !! d = folders st !! d.
Proof.
  induction fuel as [|fuel IH]; intros st P path Hr Hfuel; [lia|].
  rewrite updateDescendantPaths_unfold.
  apply (fold_repath_returns rank bound fuel P path st).
  - intros s c path' Hs Hc. apply IH; [done|lia].
  - done.
  - intros c fc Hin. apply elem_of_find_by_parent in Hin as [Hc Hp].
    split; [by eexists|]. by eapply ranked_parent.
  - apply same_shape_refl.
Qed.

(** X1. Moving to the root a folder that is already at root level: on an
    acyclic tree the call answers 200 for whoever may edit the folder. No
    name is compared and no cycle is looked for: the folder keeps
    [parent = null] with path "/", the tree keeps its shape, whatever
    other root-level folders of the same name and owner exist. *)
Theorem moveFolder_root_level_to_root st userId id folder rank bound :
  folders st !! id = Some folder →
  folder_allows folder userId FILE_PERMISSIONS.EDIT = true →
  Folder.parent folder = None →
  ranked st rank bound →
  ∃ n, ∀ fuel, n ≤ fuel →
    ∃ st',
      moveFolder fuel st userId id None
      = Some (Json 200 "Folder moved to root", st')
      ∧ folders st' !! id = Some (Folder.set_path "/" folder)
      ∧ same_shape st st'.
Proof.
  intros Hid Hallow Hpar Hr. exists (S (bound - rank id)). intros fuel Hfuel.
  unfold moveFolder. rewrite Hid, Hallow, Hpar. cbn.
  assert (Folder.set_parent None folder = folder) as ->.
  { destruct folder. cbn in Hpar. by subst. }
  rewrite Folder_save_existing by done.
  set (st2 := with_folders _ st).
  assert (same_shape st st2) as Hst2.
  { split; [|done]. intros d. cbn. destruct (decide (d = id)) as [->|Hne].
    - by rewrite lookup_insert_eq, Hid.
    - by rewrite lookup_insert_ne. }
  destruct (updateDescendantPaths_returns rank bound fuel st2 id "/")
    as (st3 & -> & Hst3 & Hframe); [by eapply ranked_same_shape|done|].
  eexists. split; [done|]. split.
  - rewrite Hframe by done. apply lookup_insert_eq.
  - by eapply same_shape_trans.
Qed.

Lemma moveFolder_root_level_to_root_witness :
  (∃ twin, folders sample_twins !! 4%positive = Some twin
           ∧ Folder.name twin = Folder.name sample_A
           ∧ Folder.owner twin = Folder.owner sample_A
           ∧ Folder.parent twin = None ∧ Folder.isTrash twin = false)
  ∧ ∃ n, ∀ fuel, n ≤ fuel →
      ∃ st',
        moveFolder fuel sample_twins 10 1 None
        = Some (Json 200 "Folder moved to root", st')
        ∧ folders st' !! 1%positive = Some (Folder.set_path "/" sample_A)
        ∧ same_shape sample_twins st'.
Proof.
  split.
  - eexists. repeat split; reflexivity.
  - apply (moveFolder_root_level_to_root
             sample_twins 10 1 sample_A (λ _, 0) 0).
    + reflexivity.
    + reflexivity.
    + reflexivity.
    + apply (bool_decide_unpack (ranked sample_twins (λ _, 0) 0)).
      vm_compute. reflexivity.
Defined.

(** X4. On the upload path that goes through [analyzeFile], a content
    analysis that raises yields the verdict score 100, malicious; the
    record is created quarantined, and a download of it is answered 403
    and changes nothing. *)
Theorem scanned_upload_failed_analysis_quarantined
    (db : gmap Id Scanned.t) (file : Upload.t) (userId newId : Id) :
  analyzeFile None = ScanResult.mk 100 true
  ∧ ∃ db' record,
      Scanned.uploadFile db (Some file) userId true None newId
      = (Json 201 "File uploaded successfully", db')
      ∧ db' !! newId = Some record
      ∧ Scanned.riskScore record = 100%Z
      ∧ Scanned.isQuarantined record = true
      ∧ ∀ onDisk,
          Scanned.downloadFile db' newId onDisk
          = (Json 403
               "This file has been quarantined due to security concerns",
             db').
Proof.
  split; [done|]. eexists _, _. split; [done|].
  rewrite lookup_insert_eq. split; [done|]. split; [done|]. split; [done|].
  intros onDisk. unfold Scanned.downloadFile. by rewrite lookup_insert_eq.
Qed.

(** ** Removing a grant *)

Lemma findIndex_user st_l u i :
  findIndex (λ share, bool_decide (SharedGrant.user share = u)) st_l = Some i →
  ∃ before g after,
    st_l = before ++ g :: after ∧ length before = i
    ∧ SharedGrant.user g = u
    ∧ ∀ h, h ∈ before → SharedGrant.user h ≠ u.
Proof.
  intros Hfind.
  apply findIndex_Some in Hfind as (before & g & after & -> & <- & Hg & Hb).
  exists before, g, after. split; [done|]. split; [done|].
  split; [by apply bool_decide_eq_true in Hg|].
  intros h Hh. specialize (Hb h Hh). by apply bool_decide_eq_false in Hb.
Qed.

Lemma findIndex_user_None l u :
  findIndex (λ share, bool_decide (SharedGrant.user share = u)) l = None →
  u ∉ grantees l.
Proof.
  intros Hfind Hin. apply list_elem_of_fmap in Hin as (g & -> & Hg).
  pose proof (findIndex_None _ _ Hfind g Hg) as Hp.
  by apply bool_decide_eq_false in Hp.
Qed.

Lemma grantees_delete l u i :
  findIndex (λ share, bool_decide (SharedGrant.user share = u)) l = Some i →
  NoDup (grantees l) →
  NoDup (grantees (delete i l)) ∧ u ∉ grantees (delete i l).
Proof.
  intros Hfind Hnd.
  apply findIndex_user in Hfind as (before & g & after & -> & <- & <- & Hb).
  rewrite delete_middle. unfold grantees in *.
  rewrite fmap_app in *. rewrite fmap_cons in Hnd.
  apply NoDup_app in Hnd as (Hnb & Hdisj & Hna).
  apply NoDup_cons in Hna as [Hg Hna].
  split.
  - apply NoDup_app. split; [done|]. split; [|done].
    intros x Hx Hxa. apply (Hdisj x Hx). by right.
  - intros Hin. apply elem_of_app in Hin as [Hin|Hin]; [|done].
    apply (Hdisj _ Hin). by left.
Qed.

Lemma grants_unique_folder st id folder l :
  grants_unique st →
  NoDup (grantees l) →
  grants_unique
    (with_folders (<[id := Folder.set_sharedWith l folder]> (folders st)) st).
Proof.
  intros [Hfo Hfi] Hl. split; [|done]. cbn.
  by apply map_Forall_insert_2.
Qed.

Lemma Folder_save_sharedWith st id folder l :
  folders st !! id = Some folder →
  Folder_save st false id folder (Folder.set_sharedWith l folder)
  = Ok (with_folders (<[id := Folder.set_sharedWith l folder]> (folders st))
                     st).
Proof. intros Hf. by rewrite Folder_save_existing. Qed.

(** X5. Sharing keeps one grant per user: when no folder and no file of
    the database holds two grants for one user, the same is true after
    [shareFolder], [unshareFolder], [shareFile] and [unshareFile], whatever
    the request and whatever the answer. *)
Theorem sharing_keeps_one_grant_per_user st caller id u permission message
    now :
  grants_unique st →
  grants_unique (shareFolder st caller id u permission message now).2
  ∧ grants_unique (unshareFolder st caller id u).2
  ∧ grants_unique (shareFile st caller id u permission message now).2
  ∧ grants_unique (unshareFile st caller id u now).2.
Proof.
  intros Hst. pose proof Hst as [Hfo Hfi].
  split; [|split; [|split]].
  - unfold shareFolder. destruct permission as [p|]; [|done].
    destruct (includes _ p); [|done]. cbn.
    destruct (folders st !! id) as [folder|] eqn:Hf; [|done].
    destruct (folder_allows _ _ _); [|done]. cbn.
    by destruct (decide (u = caller)).
  - unfold unshareFolder.
    destruct (folders st !! id) as [folder|] eqn:Hf; [|done].
    destruct (folder_allows _ _ _); [|done]. cbn -[File_save Folder_save].
    destruct (findIndex _ _) as [i|] eqn:Hfind; [|done].
    rewrite Folder_save_sharedWith by done. cbn.
    apply grants_unique_folder; [done|].
    apply (grantees_delete _ u); [done|]. apply (Hfo id folder Hf).
  - unfold shareFile. destruct (includes _ _); [|done]. cbn.
    by destruct (decide (caller = u)).
  - done.
Qed.

Lemma sharing_keeps_one_grant_per_user_witness :
  grants_unique sample_shared_files
  ∧ grants_unique
      (shareFile sample_shared_files 10 5 12 (Some "view") None 7).2
  ∧ grants_unique (unshareFile sample_shared_files 10 5 11 7).2.
Proof.
  assert (grants_unique sample_shared_files) as Hst.
  { apply (bool_decide_unpack (grants_unique sample_shared_files)).
    vm_compute. reflexivity. }
  split; [exact Hst|].
  destruct (sharing_keeps_one_grant_per_user sample_shared_files 10 5 12
              (Some "view") None 7 Hst) as (_ & _ & H3 & _).
  destruct (sharing_keeps_one_grant_per_user sample_shared_files 10 5 11
              (Some "view") None 7 Hst) as (_ & _ & _ & H4).
  split; [exact H3|exact H4].
Defined.

Lemma find_user_skip before g after v :
  SharedGrant.user g ≠ v →
  List.find (λ share, bool_decide (SharedGrant.user share = v))
            (before ++ g :: after)
  = List.find (λ share, bool_decide (SharedGrant.user share = v))
              (before ++ after).
Proof.
  intros Hg. induction before as [|a before IH]; cbn.
  - by rewrite bool_decide_eq_false_2.
  - by rewrite IH.
Qed.

Lemma hasPermission_skip owner before g after v required :
  SharedGrant.user g ≠ v →
  hasPermission owner (before ++ g :: after) v required
  = hasPermission owner (before ++ after) v required.
Proof. intros Hg. unfold hasPermission. by rewrite find_user_skip. Qed.

Lemma not_grantee l u :
  u ∉ grantees l → ∀ g, g ∈ l → SharedGrant.user g ≠ u.
Proof.
  intros Hno g Hg Hu. apply Hno. apply list_elem_of_fmap. by exists g.
Qed.

Lemma grantee_found l u :
  u ∈ grantees l →
  is_Some (findIndex (λ share, bool_decide (SharedGrant.user share = u)) l).
Proof.
  intros Hin. destruct (findIndex _ l) eqn:Hfind; [by eexists|].
  by apply findIndex_user_None in Hfind.
Qed.

(** X6. Revoking a folder grant. On a folder that holds at most one grant
    per user, a caller who owns the folder or holds manage on it removes the
    grant of [u] with 200: afterwards [u] has no entry, so that [u], unless
    the owner, passes the permission check at no level; every other user
    passes exactly the checks passed before; and nothing else in the
    database changes. *)
Theorem unshareFolder_revokes st caller id u folder :
  folders st !! id = Some folder →
  NoDup (grantees (Folder.sharedWith folder)) →
  folder_allows folder caller FILE_PERMISSIONS.MANAGE = true →
  u ∈ grantees (Folder.sharedWith folder) →
  ∃ st' new,
    unshareFolder st caller id u
    = (Json 200 "Share removed successfully", st')
    ∧ folders st' !! id = Some (Folder.set_sharedWith new folder)
    ∧ (u ∉ grantees new)
    ∧ (Folder.owner folder ≠ u →
       ∀ required,
         folder_allows (Folder.set_sharedWith new folder) u required = false)
    ∧ (∀ v required, v ≠ u →
         folder_allows (Folder.set_sharedWith new folder) v required
         = folder_allows folder v required)
    ∧ (∀ j, j ≠ id → folders st' !! j = folders st !! j)
    ∧ files st' = files st ∧ users st' = users st.
Proof.
  intros Hf Hnd Hallow Hin. unfold unshareFolder. rewrite Hf, Hallow.
  cbn -[Folder_save].
  destruct (grantee_found _ _ Hin) as [i Hfind]. rewrite Hfind.
  rewrite Folder_save_sharedWith by done.
  destruct (grantees_delete _ _ _ Hfind Hnd) as [_ Hgone].
  eexists _, _. split; [done|]. cbn. rewrite lookup_insert_eq.
  split; [done|]. split; [done|]. split; [|split; [|split; [|done]]].
  - intros Hne required. unfold folder_allows, Folder_hasPermission. cbn.
    rewrite bool_decide_eq_false_2 by done. cbn.
    apply hasPermission_no_grant; [done|]. by apply not_grantee.
  - intros v required Hv. unfold folder_allows, Folder_hasPermission. cbn.
    f_equal.
    apply findIndex_user in Hfind as (before & g & after & -> & <- & Hg & _).
    rewrite delete_middle. symmetry. apply hasPermission_skip. congruence.
  - intros j Hj. by rewrite lookup_insert_ne.
Qed.

Lemma unshareFolder_revokes_witness :
  ∃ st' new,
    unshareFolder sample_shared_tree 10 1 11
    = (Json 200 "Share removed successfully", st')
    ∧ folders st' !! 1%positive
      = Some (Folder.set_sharedWith new sample_shared_A)
    ∧ (11%positive ∉ grantees new)
    ∧ (∀ required,
         folder_allows (Folder.set_sharedWith new sample_shared_A) 11
                       required = false).
Proof.
  destruct (unshareFolder_revokes sample_shared_tree 10 1 11 sample_shared_A)
    as (st' & new & H1 & H2 & H3 & H4 & _).
  - reflexivity.
  - apply (bool_decide_unpack _). vm_compute. reflexivity.
  - reflexivity.
  - apply (bool_decide_unpack _). vm_compute. reflexivity.
  - exists st', new. split; [exact H1|]. split; [exact H2|].
    split; [exact H3|]. apply H4. discriminate.
Defined.

(** ** Moving a folder to the trash *)

Lemma Folder_save_isTrash st id folder b :
  folders st !! id = Some folder →
  Folder_save st false id folder (Folder.set_isTrash b folder)
  = Ok (with_folders (<[id := Folder.set_isTrash b folder]> (folders st))
                     st).
Proof. intros Hf. by rewrite Folder_save_existing. Qed.

(** X11. Moving a folder to the trash stops half way. For a caller who
    owns the folder or holds manage on it, [deleteFolder] without the
    permanent flag marks the folder as trash, lowers the [folderCount] of
    its parent by one, and then raises on the files: the answer is 500,
    the files and the users are as before, and so is every folder other
    than the folder and its parent, the subfolders among them. With the
    permanent flag the answer is 500 and nothing changes. *)
Theorem deleteFolder_trash_stops_half_way st userId id folder :
  folders st !! id = Some folder →
  folder_allows folder userId FILE_PERMISSIONS.MANAGE = true →
  let trashed :=
    with_folders (<[id := Folder.set_isTrash true folder]> (folders st))
                 st in
  let st' :=
    match Folder.parent folder with
    | Some p => Folder_inc_folderCount trashed p (-1)
    | None => trashed
    end in
  deleteFolder st userId id false = (Json 500 "Error deleting folder", st')
  ∧ files st' = files st
  ∧ users st' = users st
  ∧ (∀ d, d ≠ id → Some d ≠ Folder.parent folder →
          folders st' !! d = folders st !! d)
  ∧ (∀ p parentFolder,
       Folder.parent folder = Some p → p ≠ id →
       folders st !! p = Some parentFolder →
       folders st' !! p
       = Some (Folder.set_folderCount (Folder.folderCount parentFolder - 1)
                                      parentFolder)
       ∧ folders st' !! id = Some (Folder.set_isTrash true folder))
  ∧ (Folder.parent folder = None →
     folders st' !! id = Some (Folder.set_isTrash true folder))
  ∧ deleteFolder st userId id true = (Json 500 "Error deleting folder", st).
Proof.
  intros Hf Hallow trashed st'.
  split; [|split; [|split; [|split; [|split; [|split]]]]].
  - unfold deleteFolder. rewrite Hf, Hallow. cbn -[Folder_save].
    by rewrite Folder_save_isTrash.
  - unfold st'. by destruct (Folder.parent folder).
  - unfold st'. by destruct (Folder.parent folder).
  - intros d Hd Hp. unfold st'.
    destruct (Folder.parent folder) as [p|]; cbn.
    + rewrite lookup_alter_ne by congruence. by rewrite lookup_insert_ne.
    + by rewrite lookup_insert_ne.
  - intros p parentFolder Hp Hne Hpf. unfold st'. rewrite Hp. cbn. split.
    + rewrite lookup_alter_eq, lookup_insert_ne by done. by rewrite Hpf.
    + rewrite lookup_alter_ne by done. by rewrite lookup_insert_eq.
  - intros Hp. unfold st'. rewrite Hp. cbn. by rewrite lookup_insert_eq.
  - unfold deleteFolder. by rewrite Hf, Hallow.
Qed.

Lemma deleteFolder_trash_stops_half_way_witness :
  ∃ st',
    deleteFolder sample_deep 10 2 false
    = (Json 500 "Error deleting folder", st')
    ∧ Folder.isTrash <$> folders st' !! 2%positive = Some true
    ∧ Folder.folderCount <$> folders st' !! 1%positive = Some 0%Z
    ∧ folders st' !! 3%positive = folders sample_deep !! 3%positive
    ∧ files st' = files sample_deep.
Proof.
  destruct (deleteFolder_trash_stops_half_way sample_deep 10 2
              (Folder.mk "C" (Some 1%positive) "/A/" 10 [] false None 1))
    as (Hrun & Hfiles & _); [reflexivity..|].
  eexists. split; [exact Hrun|].
  split; [by vm_compute|]. split; [by vm_compute|].
  split; [by vm_compute|exact Hfiles].
Defined.

(** ** Names of sibling folders *)

Lemma rivals_key f f' g g' :
  name_key f = name_key f' → name_key g = name_key g' →
  rivals f g → rivals f' g'.
Proof.
  unfold name_key, rivals. intros [= -> -> -> ->] [= -> -> -> ->]. done.
Qed.

Lemma names_unique_same_keys st s :
  names_unique st →
  (∀ d, name_key <$> folders s !! d = name_key <$> folders st !! d) →
  names_unique s.
Proof.
  intros Hst Hkeys i f Hi j g Hj Hriv.
  pose proof (Hkeys i) as Hki. pose proof (Hkeys j) as Hkj.
  rewrite Hi in Hki. rewrite Hj in Hkj.
  destruct (folders st !! i) as [f0|] eqn:Hi0; [|done].
  destruct (folders st !! j) as [g0|] eqn:Hj0; [|done].
  cbn in Hki, Hkj.
  assert (name_key f = name_key f0) as Hkf by congruence.
  assert (name_key g = name_key g0) as Hkg by congruence.
  apply (Hst i f0 Hi0 j g0 Hj0). by apply (rivals_key f f0 g g0).
Qed.

Lemma names_unique_insert st id new :
  names_unique st →
  (∀ j g, j ≠ id → folders st !! j = Some g → ¬ rivals new g) →
  names_unique (with_folders (<[id := new]> (folders st)) st).
Proof.
  intros Hst Hnew i f Hi j g Hj Hriv. cbn in Hi, Hj.
  destruct (decide (i = j)) as [|Hij]; [done|]. exfalso.
  destruct (decide (i = id)) as [->|Hiid].
  - rewrite lookup_insert_eq in Hi. injection Hi as <-.
    rewrite lookup_insert_ne in Hj by done. by apply (Hnew j g).
  - rewrite lookup_insert_ne in Hi by done.
    destruct (decide (j = id)) as [->|Hjid].
    + rewrite lookup_insert_eq in Hj. injection Hj as <-.
      apply (Hnew i f); [done..|].
      destruct Hriv as (? & ? & ? & ? & ?). by repeat split.
    + rewrite lookup_insert_ne in Hj by done.
      by apply Hij, (Hst i f Hi j g Hj).
Qed.

Lemma name_free st name parent owner except :
  Folder_name_taken st name parent owner except = false →
  ∀ j g, folders st !! j = Some g →
    Folder.name g = name → Folder.parent g = parent →
    Folder.owner g = owner → Folder.isTrash g = false →
    Some j = except.
Proof.
  unfold Folder_name_taken. intros Hfree j g Hj Hn Hp Ho Ht.
  apply bool_decide_eq_false in Hfree.
  destruct (decide (Some j = except)) as [|Hne]; [done|]. exfalso.
  apply Hfree. intros Hnil.
  assert ((j, g) ∈ filter
            (λ d : Id * Folder.t,
               Folder.name d.2 = name ∧ Folder.parent d.2 = parent
               ∧ Folder.owner d.2 = owner ∧ Folder.isTrash d.2 = false
               ∧ Some d.1 ≠ except)
            (map_to_list (folders st))) as Hin.
  { apply list_elem_of_filter. split; [done|].
    by apply elem_of_map_to_list. }
  rewrite Hnil in Hin. by apply elem_of_nil in Hin.
Qed.

(** X12. Creation and renaming keep the names of siblings apart. When no
    two live folders of one owner in one place bear the same name, this
    still holds after [createFolder] (for an id that is not in use yet) and
    after [updateFolder], whatever the request and whatever the answer. *)
Theorem create_and_rename_keep_names_apart st userId id name parent
    rename :
  names_unique st →
  folders st !! id = None →
  names_unique (createFolder st userId name parent id).2
  ∧ ∀ target, names_unique (updateFolder st userId target rename).2.
Proof.
  intros Hst Hfresh. split.
  - unfold createFolder.
    destruct (decide (trim name = "")); [done|].
    destruct (Folder_name_taken st (trim name) parent userId None)
      eqn:Hfree; [done|].
    assert (∀ path j g, folders st !! j = Some g →
              ¬ rivals (Folder.mk (trim name) parent path userId [] false
                                  None 0) g) as Hnew.
    { intros path j g Hj (_ & Ht & Hp & Ho & Hn). cbn in *.
      by pose proof (name_free _ _ _ _ _ Hfree j g Hj (eq_sym Hn)
                       (eq_sym Hp) (eq_sym Ho) Ht). }
    destruct parent as [p|].
    + destruct (folders st !! p) as [parentFolder|] eqn:Hp; [|done].
      destruct (folder_allows parentFolder userId _); [|done].
      cbn -[Folder_save Folder_validate].
      rewrite Folder_save_existing by done.
      assert (names_unique
                (with_folders
                   (<[p := Folder.set_folderCount
                             (Folder.folderCount parentFolder + 1)
                             parentFolder]> (folders st)) st)) as Hraised.
      { apply (names_unique_same_keys st); [done|]. intros d. cbn.
        destruct (decide (d = p)) as [->|Hd].
        - rewrite lookup_insert_eq. cbn. by rewrite Hp.
        - by rewrite lookup_insert_ne. }
      destruct (Folder_validate _); cbn -[Folder_save]; [|exact Hraised].
      unfold Folder_save, Folder_pre_save. cbn.
      rewrite lookup_insert_eq. cbn.
      set (counted := alter _ p _).
      assert (names_unique (with_folders counted st)) as Hcounted.
      { apply (names_unique_same_keys st); [done|]. intros d. cbn.
        unfold counted. destruct (decide (d = p)) as [->|Hd].
        - rewrite lookup_alter_eq, lookup_insert_eq. cbn. by rewrite Hp.
        - by rewrite lookup_alter_ne, lookup_insert_ne. }
      apply (names_unique_insert (with_folders counted st));
        [done|].
      intros j g Hj Hg. cbn in Hg. unfold counted in Hg.
      destruct (decide (j = p)) as [->|Hjp].
      * rewrite lookup_alter_eq, lookup_insert_eq in Hg. cbn in Hg.
        injection Hg as <-. intros Hriv.
        apply (Hnew (fullPath
                 (Folder.set_folderCount (Folder.folderCount parentFolder + 1)
                    parentFolder)) p parentFolder Hp).
        revert Hriv. by apply rivals_key.
      * rewrite lookup_alter_ne, lookup_insert_ne in Hg by done.
        by apply (Hnew _ j g).
    + destruct (Folder_validate _); cbn -[Folder_save]; [|done].
      unfold Folder_save, Folder_pre_save. cbn.
      apply names_unique_insert; [done|]. intros j g _ Hg.
      by apply (Hnew _ j g).
  - intros target. unfold updateFolder.
    destruct (folders st !! target) as [folder|] eqn:Hf; [|done].
    destruct (folder_allows folder userId _); [|done].
    cbn -[Folder_save Folder_validate].
    assert (names_unique
              (match Folder_save st false target folder folder with
               | Throw st1 => (Json 500 "Error updating folder", st1)
               | Ok st1 => (Json 200 "", st1)
               end).2) as Hsame.
    { rewrite Folder_save_existing by done. cbn.
      apply names_unique_insert; [done|]. intros j g Hj Hg Hriv.
      by apply Hj, eq_sym, (Hst target folder Hf j g Hg). }
    destruct rename as [n|]; [|done].
    destruct (decide (n ≠ "" ∧ trim n ≠ "")); [|done].
    destruct (Folder_name_taken st (trim n) _ _ _) eqn:Hfree; [done|].
    destruct (Folder_validate _); cbn -[Folder_save]; [|done].
    rewrite Folder_save_existing by done. cbn.
    apply names_unique_insert; [done|]. intros j g Hj Hg Hriv.
    destruct Hriv as (_ & Ht & Hp & Ho & Hn). cbn in *.
    pose proof (name_free _ _ _ _ _ Hfree j g Hg (eq_sym Hn) (eq_sym Hp)
                  (eq_sym Ho) Ht) as Hj'.
    by injection Hj' as ->.
Qed.

Lemma create_and_rename_keep_names_apart_witness :
  createFolder sample_tree 10 " C " (Some 1%positive) 3
  = (Json 409 "A folder with this name already exists in this location",
     sample_tree)
  ∧ names_unique (createFolder sample_tree 10 "B" (Some 1%positive) 3).2
  ∧ ∀ target,
      names_unique (updateFolder sample_tree 10 target (Some "E")).2.
Proof.
  split; [reflexivity|].
  apply (create_and_rename_keep_names_apart sample_tree 10 3 "B"
           (Some 1%positive) (Some "E")).
  - apply (bool_decide_unpack (names_unique sample_tree)).
    vm_compute. reflexivity.
  - reflexivity.
Defined.

(** ** Breadcrumbs *)

Lemma getBreadcrumbs_loop_lineage st rank bound fuel :
  ranked st rank bound →
  ∀ c f acc,
    folders st !! c = Some f → rank c < fuel →
    ∃ chain,
      getBreadcrumbs_loop fuel st (Some c) acc
      = Some ((crumb_of <$> chain) ++ acc)
      ∧ lineage st c chain.
Proof.
  intros Hr. induction fuel as [|fuel IH]; intros c f acc Hc Hfuel; [lia|].
  cbn. rewrite Hc.
  destruct (Folder.parent f) as [p|] eqn:Hp.
  - pose proof (ranked_parent _ _ _ _ _ _ Hr Hc Hp) as Hrank.
    destruct (folders st !! p) as [fp|] eqn:Hfp.
    + destruct (IH p fp (Crumb.mk (Some c) (Folder.name f) (fullPath f)
                         :: acc) Hfp) as (chain & Hrun & Hlin); [lia|].
      exists (chain ++ [(c, f)]). split.
      * rewrite Hrun. rewrite fmap_app. by rewrite <- app_assoc.
      * by eapply lineage_step.
    + exists [(c, f)]. split.
      * destruct fuel as [|fuel']; [lia|]. cbn. by rewrite Hfp.
      * apply lineage_top; [done|]. rewrite Hp. cbn. done.
  - exists [(c, f)]. split.
    + by destruct fuel.
    + apply lineage_top; [done|]. by rewrite Hp.
Qed.

(** X13. Breadcrumbs. On an acyclic folder tree, [getBreadcrumbs] returns
    once the fuel exceeds the depth of the tree. Its answer starts with the
    synthetic entry Root; for a folder of the database the entries that
    follow name the folder's ancestors from the topmost one down to the
    folder itself, each with the name and the [fullPath] of the folder it
    names; for no folder, or for an id the database does not hold, Root is
    the only entry. *)
Theorem getBreadcrumbs_lists_lineage st rank bound fuel :
  ranked st rank bound →
  bound < fuel →
  getBreadcrumbs fuel st None = Some [Crumb.mk None "Root" "/"]
  ∧ (∀ c, folders st !! c = None →
          getBreadcrumbs fuel st (Some c) = Some [Crumb.mk None "Root" "/"])
  ∧ (∀ c f, folders st !! c = Some f →
       ∃ chain,
         getBreadcrumbs fuel st (Some c)
         = Some (Crumb.mk None "Root" "/" :: (crumb_of <$> chain))
         ∧ lineage st c chain
         ∧ last chain = Some (c, f)).
Proof.
  intros Hr Hfuel. split; [|split].
  - by destruct fuel.
  - intros c Hc. unfold getBreadcrumbs. destruct fuel; [lia|]. cbn.
    by rewrite Hc.
  - intros c f Hc.
    destruct (getBreadcrumbs_loop_lineage st rank bound fuel Hr c f [] Hc)
      as (chain & Hrun & Hlin).
    { destruct (Hr c f Hc) as [Hle _]. lia. }
    exists chain. unfold getBreadcrumbs. rewrite Hrun, app_nil_r.
    split; [done|]. split; [done|].
    destruct Hlin as [c f' Hc' _|c f' p chain Hc' _ _].
    + rewrite Hc in Hc'. by injection Hc' as <-.
    + rewrite last_snoc. rewrite Hc in Hc'. by injection Hc' as <-.
Qed.

Lemma getBreadcrumbs_lists_lineage_witness :
  getBreadcrumbs 4 sample_deep (Some 3%positive)
  = Some [Crumb.mk None "Root" "/";
          Crumb.mk (Some 1%positive) "A" "/A";
          Crumb.mk (Some 2%positive) "C" "/A/C/";
          Crumb.mk (Some 3%positive) "D" "/A/C/D/"]
  ∧ ∃ chain,
      getBreadcrumbs 4 sample_deep (Some 3%positive)
      = Some (Crumb.mk None "Root" "/" :: (crumb_of <$> chain))
      ∧ lineage sample_deep 3 chain.
Proof.
  split; [reflexivity|].
  destruct (getBreadcrumbs_lists_lineage sample_deep Pos.to_nat 3 4)
    as (_ & _ & H).
  - apply (bool_decide_unpack (ranked sample_deep Pos.to_nat 3)).
    vm_compute. reflexivity.
  - lia.
  - destruct (H 3%positive _ eq_refl) as (chain & H1 & H2 & _).
    exists chain. split; [exact H1|exact H2].
Defined.

(** ** Content analysis and risk scoring *)

Lemma scanPatterns_raises regex fileContent riskScore :
  scanPatterns regex fileContent suspiciousPatterns riskScore
  = (riskScore, true).
Proof. reflexivity. Qed.

(** X15. The content analysis flags nothing. The first of the suspicious
    patterns, the string eval( , is not a regular expression (its group is
    never closed), so that building it raises inside the [try] before any
    pattern is compared: every content, readable or not, adds 10 to the
    score. Whenever [fs.statSync] returns, [analyzeFileContent] returns a
    score of 10, 30, 50 or 70 and [isMalicious] false; it raises when
    [fs.statSync] raises. On the upload path that uses it, a record is
    therefore quarantined exactly when the analysis raised. *)
Theorem analyzeFileContent_never_flags
    (regex : string → option (string → bool)) (filePath : string)
    (content : option string) :
  analyzeFileContent regex filePath None content = None
  ∧ (∀ size,
       ∃ result,
         analyzeFileContent regex filePath (Some size) content = Some result
         ∧ ScanResult.isMalicious result = false
         ∧ ScanResult.riskScore result ∈ [10; 30; 50; 70]%Z)
  ∧ (∀ stats db file userId newId,
       ∃ db' record,
         Scanned.uploadFile db (Some file) userId true
           (analyzeFileContent regex filePath stats content) newId
         = (Json 201 "File uploaded successfully", db')
         ∧ db' !! newId = Some record
         ∧ (Scanned.isQuarantined record = true ↔ stats = None)).
Proof.
  assert (∀ size,
            ∃ result,
              analyzeFileContent regex filePath (Some size) content
              = Some result
              ∧ ScanResult.isMalicious result = false
              ∧ ScanResult.riskScore result ∈ [10; 30; 50; 70]%Z) as Hsome.
  { intros size. unfold analyzeFileContent.
    eexists. split; [done|]. cbn zeta.
    destruct (includes riskyExtensions _),
             (decide (size > 10 * (1024 * 1024))%Z), content;
      rewrite ?scanPatterns_raises; cbn; (split; [done|set_solver]). }
  split; [done|]. split; [done|].
  intros stats db file userId newId. unfold Scanned.uploadFile. cbn.
  eexists _, _. split; [done|]. rewrite lookup_insert_eq. split; [done|].
  cbn. destruct stats as [size|].
  - destruct (Hsome size) as (result & -> & Hmal & _). cbn. by rewrite Hmal.
  - done.
Qed.

Lemma uploadFile_blocks_iff maxFileSize st file userId folderId a uploaded
    newId now :
  (Upload.size file ≤ maxFileSize)%Z →
  uploadFile maxFileSize st (Some file) userId folderId (Some a) uploaded
             newId now = blocked
  ↔ flagged a = true.
Proof.
  intros Hsize. rewrite uploadFile_past_size by done.
  by destruct (flagged a).
Qed.

Lemma _getRiskLevel_high score :
  _getRiskLevel score = "high" ↔ (60 ≤ score < 80)%Z.
Proof.
  unfold _getRiskLevel. repeat case_decide; split; (done || lia).
Qed.

(** X16. The risk gate of [uploadFile] behind [RiskScoringService]. The
    service never raises: a request that fails yields the verdict score
    100, level high, malicious, and the upload is refused with 403. For an
    answer of the model, the upload is refused with 403 exactly when the
    answer says [is_malicious] or its score lies from 60 to 79. A score of
    80 or more is of level critical, which the gate does not look at:
    unless the answer also says [is_malicious], such a file gets past the
    gate like a clean one, and the call goes on to the 500 that every
    upload past the gate ends with. *)
Theorem riskScoring_gate maxFileSize st file userId folderId uploaded newId
    now :
  (Upload.size file ≤ maxFileSize)%Z →
  uploadFile maxFileSize st (Some file) userId folderId
             (Some (calculateRiskScore None)) uploaded newId now = blocked
  ∧ (∀ data,
       uploadFile maxFileSize st (Some file) userId folderId
                  (Some (calculateRiskScore (Some data))) uploaded newId now
       = blocked
       ↔ ∃ d, data = Some d
              ∧ (AiResponse.is_malicious d = Some true
                 ∨ ∃ s, AiResponse.score d = Some s ∧ (60 ≤ s < 80)%Z))
  ∧ (∀ s clean,
       (80 ≤ s)%Z →
       Risk.riskLevel
         (calculateRiskScore
            (Some (Some (AiResponse.mk (Some s) (Some false)))))
       = "critical"
       ∧ uploadFile maxFileSize st (Some file) userId folderId
           (Some (calculateRiskScore
                    (Some (Some (AiResponse.mk (Some s) (Some false))))))
           uploaded newId now
         = (Json 500 "Error uploading file", [])
       ∧ (flagged clean = false →
          uploadFile maxFileSize st (Some file) userId folderId (Some clean)
                     uploaded newId now
          = (Json 500 "Error uploading file", []))).
Proof.
  intros Hsize. split; [|split].
  - by apply uploadFile_blocks_iff.
  - intros data. rewrite uploadFile_blocks_iff by done.
    unfold flagged. destruct data as [[score mal]|]; cbn.
    + rewrite orb_true_iff, bool_decide_eq_true, _getRiskLevel_high.
      split.
      * intros [Hmal|Hs].
        -- exists (AiResponse.mk score mal). split; [done|]. left. cbn.
           by destruct mal as [[]|].
        -- exists (AiResponse.mk score mal). split; [done|]. right. cbn.
           destruct score as [s|]; cbn in Hs; [by exists s|lia].
      * intros (d & [= <-] & [Hmal|(s & Hs & Hrange)]); cbn in *.
        -- left. by rewrite Hmal.
        -- right. by rewrite Hs.
    + split; [done|]. by intros (d & Hd & _).
  - intros s clean Hs.
    assert (_getRiskLevel s = "critical") as Hlevel.
    { unfold _getRiskLevel. by rewrite decide_True by lia. }
    split; [done|]. split.
    + rewrite uploadFile_past_size by done. unfold flagged. cbn.
      by rewrite Hlevel.
    + intros Hclean. rewrite uploadFile_past_size by done.
      by rewrite Hclean.
Qed.

Lemma riskScoring_gate_witness :
  uploadFile 100 sample_files (Some (Upload.mk "b.txt" "text/plain" 10)) 10
             None (Some (calculateRiskScore None))
             (Some (Storage.mk "k9" "u9" "e9")) 6 7 = blocked
  ∧ uploadFile 100 sample_files (Some (Upload.mk "b.txt" "text/plain" 10))
      10 None
      (Some (calculateRiskScore
               (Some (Some (AiResponse.mk (Some 95%Z) (Some false))))))
      (Some (Storage.mk "k9" "u9" "e9")) 6 7
    = (Json 500 "Error uploading file", []).
Proof.
  destruct (riskScoring_gate 100 sample_files
              (Upload.mk "b.txt" "text/plain" 10) 10 None
              (Some (Storage.mk "k9" "u9" "e9")) 6 7) as (H1 & _ & H3).
  - cbn. lia.
  - split; [exact H1|].
    destruct (H3 95%Z (Risk.mk 0 "info" false false)) as (_ & Hpast & _);
      [lia|exact Hpast].
Defined.

Lemma found_signature (p : string → bool) (l : list string) :
  0 < length (List.filter p l) ↔ ∃ sig, sig ∈ l ∧ p sig = true.
Proof.
  induction l as [|a l IH]; cbn.
  - split; [lia|]. intros (sig & Hin & _). by apply elem_of_nil in Hin.
  - destruct (p a) eqn:Hpa; cbn.
    + split; [|lia]. intros _. exists a. split; [by left|done].
    + rewrite IH. split.
      * intros (sig & Hin & Hp). exists sig. split; [by right|done].
      * intros (sig & Hin & Hp). exists sig. split; [|done].
        apply elem_of_cons in Hin as [->|Hin]; [congruence|done].
Qed.

(** X17. The risk gate of [uploadFile] behind the mock scorer. The mock
    never raises and its score lies between 0 and 100. With the size term
    and the random term in their ranges, the upload is refused with 403
    exactly when the content of the file cannot be read, or its extension
    is one of the risky ones, or its content starts with one of the known
    signatures (the signature of PDF files among them); every other file
    passes the gate. *)
Theorem mock_gate maxFileSize st file userId folderId uploaded newId now
    fileExt sizeLog fileHex noise :
  (Upload.size file ≤ maxFileSize)%Z →
  (0 ≤ sizeLog)%Z →
  (0 ≤ noise ≤ 10)%Z →
  (0 ≤ Risk.riskScore (mock_calculateRiskScore fileExt sizeLog fileHex noise)
     ≤ 100)%Z
  ∧ (uploadFile maxFileSize st (Some file) userId folderId
       (Some (mock_calculateRiskScore fileExt sizeLog fileHex noise))
       uploaded newId now = blocked
     ↔ fileHex = None
       ∨ fileExt ∈ RISKY_EXTENSIONS
       ∨ ∃ hex sig, fileHex = Some hex ∧ sig ∈ MALICIOUS_SIGNATURES
                    ∧ String.prefix sig hex = true).
Proof.
  intros Hsize Hlog Hnoise. rewrite uploadFile_blocks_iff by done.
  unfold mock_calculateRiskScore, flagged.
  destruct fileHex as [hex|]; cbn zeta.
  - unfold includes.
    destruct (decide (fileExt ∈ RISKY_EXTENSIONS)) as [Hrisky|Hrisky].
    + rewrite (bool_decide_eq_true_2 _ Hrisky). cbn [Risk.riskScore
        Risk.isMalicious Risk.riskLevel].
      split; [case_decide; lia|]. split; [by intros _; right; left|].
      intros _. apply orb_true_iff. rewrite !bool_decide_eq_true.
      rewrite _getRiskLevel_high. case_decide; lia.
    + rewrite (bool_decide_eq_false_2 _ Hrisky). cbn [Risk.riskScore
        Risk.isMalicious Risk.riskLevel].
      destruct (decide (0 < length _)) as [Hfound|Hfound].
      * split; [case_bool_decide; lia|]. split.
        -- intros _. right. right.
           apply found_signature in Hfound as (sig & Hin & Hp).
           by exists hex, sig.
        -- intros _. apply orb_true_iff. left.
           apply bool_decide_eq_true. case_bool_decide; lia.
      * split; [case_bool_decide; lia|]. split.
        -- intros Hflag. exfalso. apply orb_true_iff in Hflag.
           rewrite !bool_decide_eq_true, _getRiskLevel_high in Hflag.
           case_bool_decide; lia.
        -- intros [?|[?|(hex' & sig & [= <-] & Hin & Hp)]]; [done..|].
           exfalso. apply Hfound, found_signature. by exists sig.
  - cbn. split; [lia|]. split; [by left|done].
Qed.

Lemma mock_gate_witness :
  uploadFile 100 sample_files (Some (Upload.mk "b.pdf" "application/pdf" 10))
    10 None (Some (mock_calculateRiskScore ".pdf" 5 (Some "255044462D31") 3))
    (Some (Storage.mk "k9" "u9" "e9")) 6 7 = blocked.
Proof.
  apply (mock_gate 100 sample_files (Upload.mk "b.pdf" "application/pdf" 10)
           10 None (Some (Storage.mk "k9" "u9" "e9")) 6 7
           ".pdf" 5 (Some "255044462D31") 3).
  - cbn. lia.
  - lia.
  - lia.
  - right. right. exists "255044462D31", "25504446".
    split; [reflexivity|]. split; [|reflexivity].
    apply (bool_decide_unpack _). vm_compute. reflexivity.
Defined.

(** ** Middlewares *)

Lemma scanFile_assessed outcome file :
  is_Some (ReqFile.riskAssessment (scanFile outcome file)).
Proof.
  unfold scanFile. destruct (ReqFile.riskAssessment file) eqn:Hra.
  - rewrite Hra. by eexists.
  - destruct outcome; by eexists.
Qed.

Lemma scanFile_unsafe outcome file :
  unsafe (scanFile outcome file) = negb (passes_scan outcome file).
Proof.
  unfold scanFile, passes_scan, unsafe, flagged.
  destruct (ReqFile.riskAssessment file); [done|].
  destruct outcome as [a|]; [|done]. cbn.
  by destruct (Risk.isMalicious a), (bool_decide _).
Qed.

Lemma filter_nil_iff {A} (p : A → bool) (l : list A) :
  ¬ 0 < length (List.filter p l) ↔ ∀ i x, l !! i = Some x → p x = false.
Proof.
  induction l as [|a l IH]; cbn.
  - split; [by intros _ i x|lia].
  - destruct (p a) eqn:Hpa; cbn.
    + split; [lia|]. intros Hall. specialize (Hall 0 a eq_refl). congruence.
    + rewrite IH. split.
      * intros Hall [|i] x Hx; [by injection Hx as <-|]. by apply (Hall i).
      * intros Hall i x Hx. by apply (Hall (S i)).
Qed.

Lemma forallb_filter_assessed scan (files : list ReqFile.t) :
  forallb (λ f, bool_decide (is_Some (ReqFile.riskAssessment f)))
          (List.filter unsafe (fileScanMiddleware scan files)) = true.
Proof.
  apply forallb_forall. intros f Hin. apply filter_In in Hin as [Hin _].
  apply bool_decide_eq_true. apply list_elem_of_In in Hin.
  unfold fileScanMiddleware in Hin.
  apply list_elem_of_lookup in Hin as [i Hi].
  rewrite list_lookup_imap in Hi.
  destruct (files !! i) as [file|]; [|done]. injection Hi as <-.
  apply scanFile_assessed.
Qed.

Lemma blockUnsafeFiles_unfold redirectTo errorMessage logOnly acceptsHtml
    files :
  blockUnsafeFiles redirectTo errorMessage logOnly acceptsHtml files
  = if decide (0 < length (List.filter unsafe files)) then
      if forallb (λ f, bool_decide (is_Some (ReqFile.riskAssessment f)))
                 (List.filter unsafe files)
      then
        if logOnly then Next
        else if acceptsHtml then Answer (Redirect redirectTo)
        else Answer (Json 403 errorMessage)
      else Raises
    else Next.
Proof.
  destruct files; [|done]. cbn. by rewrite decide_False by lia.
Qed.

(** X18. Scanning, then blocking. After [fileScanMiddleware],
    [blockUnsafeFiles] never raises, and with [logOnly] off it lets the
    request through exactly when every file counts as safe: a file that
    came without an assessment must get a verdict that is neither
    malicious nor of level high (an assessment that raises makes it
    unsafe), and a file that came with an assessment is not scanned again
    and must already bear the mark [isSafe]. Otherwise the request is
    answered with the redirect or with 403. With [logOnly] on, every
    request goes through. *)
Theorem scan_then_block scan files redirectTo errorMessage acceptsHtml :
  (∀ logOnly,
     blockUnsafeFiles redirectTo errorMessage logOnly acceptsHtml
                      (fileScanMiddleware scan files) ≠ Raises)
  ∧ blockUnsafeFiles redirectTo errorMessage true acceptsHtml
                     (fileScanMiddleware scan files) = Next
  ∧ (blockUnsafeFiles redirectTo errorMessage false acceptsHtml
                      (fileScanMiddleware scan files) = Next
     ↔ ∀ i file, files !! i = Some file → passes_scan (scan i) file = true)
  ∧ (blockUnsafeFiles redirectTo errorMessage false acceptsHtml
                      (fileScanMiddleware scan files) ≠ Next →
     blockUnsafeFiles redirectTo errorMessage false acceptsHtml
                      (fileScanMiddleware scan files)
     = Answer (if acceptsHtml then Redirect redirectTo
               else Json 403 errorMessage)).
Proof.
  assert ((¬ 0 < length (List.filter unsafe (fileScanMiddleware scan files)))
          ↔ ∀ i file, files !! i = Some file → passes_scan (scan i) file = true)
    as Hsafe.
  { rewrite filter_nil_iff. unfold fileScanMiddleware. split.
    - intros Hall i file Hi.
      specialize (Hall i (scanFile (scan i) file)).
      rewrite list_lookup_imap, Hi in Hall. specialize (Hall eq_refl).
      rewrite scanFile_unsafe in Hall. by destruct (passes_scan _ _).
    - intros Hall i x Hx. rewrite list_lookup_imap in Hx.
      destruct (files !! i) as [file|] eqn:Hi; [|done]. injection Hx as <-.
      rewrite scanFile_unsafe. by rewrite (Hall i file Hi). }
  rewrite !blockUnsafeFiles_unfold, !forallb_filter_assessed.
  destruct (decide (0 < _)) as [Hsome|Hnone].
  - split; [intros logOnly; rewrite blockUnsafeFiles_unfold,
              forallb_filter_assessed, decide_True by done;
            by destruct logOnly, acceptsHtml|].
    split; [done|].
    split; [|by destruct acceptsHtml].
    split; [by destruct acceptsHtml|]. intros Hall.
    apply Hsafe in Hall. by destruct Hall.
  - split; [intros logOnly; rewrite blockUnsafeFiles_unfold;
            by rewrite decide_False|].
    split; [done|].
    split; [|intros H; by destruct H].
    split; [|done]. intros _. by apply Hsafe.
Qed.

Lemma find_pred_ext {A} (p q : A → bool) (l : list A) :
  (∀ x, p x = q x) → List.find p l = List.find q l.
Proof.
  intros Hpq. induction l as [|a l IH]; [done|]. cbn.
  by rewrite Hpq, IH.
Qed.

(** X19. The permission middleware and the model agree. For a caller who
    is not an administrator and a required level that is not empty, the
    middleware [hasPermission] lets the request through exactly when the
    [hasPermission] method of the document (a folder or a file) grants the
    level; without a document it answers 403. An administrator, and a
    route that names no level, always go through. *)
Theorem hasPermission_middleware_agrees required role userId :
  required ≠ "" →
  role ≠ Some "admin" →
  let user := ReqUser.mk (Some userId) role in
  (∀ doc,
     hasPermission_middleware (Some required) user (Some doc) = Next
     ↔ check doc userId required = true)
  ∧ (∀ doc,
       hasPermission_middleware (Some required) user (Some doc) ≠ Next →
       hasPermission_middleware (Some required) user (Some doc)
       = Answer (Json 403
                   "You do not have permission to perform this action"))
  ∧ hasPermission_middleware (Some required) user None
    = Answer (Json 403 "You do not have permission to perform this action")
  ∧ (∀ id doc,
       hasPermission_middleware (Some required)
         (ReqUser.mk id (Some "admin")) doc
       = Next)
  ∧ (∀ doc, hasPermission_middleware None user doc = Next).
Proof.
  intros Hreq Hrole user.
  assert (∀ doc,
            hasPermission_middleware (Some required) user (Some doc)
            = if check doc userId required then Next
              else Answer
                     (Json 403
                        "You do not have permission to perform this action"))
    as Hmw.
  { intros doc. rewrite check_unfold.
    unfold hasPermission_middleware, hasPermission, user.
    cbn [ReqUser.id ReqUser.role].
    rewrite !decide_False by done.
    destruct (decide (resource_owner doc = userId)) as [Ho|Ho].
    { by rewrite decide_True by congruence. }
    rewrite decide_False by congruence.
    rewrite (find_pred_ext
               (λ share,
                  bool_decide (Some (SharedGrant.user share) = Some userId))
               (λ share, bool_decide (SharedGrant.user share = userId))).
    2:{ intros share. apply bool_decide_ext. split; congruence. }
    destruct (List.find _ _) as [sharedAccess|]; [|done]. cbn zeta.
    change FILE_PERMISSIONS.values with ["view"; "edit"; "manage"].
    destruct (decide (_ >= _)%Z).
    - by rewrite bool_decide_eq_true_2.
    - by rewrite bool_decide_eq_false_2. }
  split; [|split; [|split; [|split]]].
  - intros doc. rewrite Hmw. by destruct (check doc userId required).
  - intros doc. rewrite Hmw. by destruct (check doc userId required).
  - unfold hasPermission_middleware, user. cbn [ReqUser.role].
    by rewrite !decide_False.
  - intros id doc. unfold hasPermission_middleware.
    rewrite decide_False by done. by rewrite decide_True.
  - done.
Qed.

Lemma hasPermission_middleware_agrees_witness :
  hasPermission_middleware (Some "edit")
      (ReqUser.mk (Some 11%positive) (Some "user"))
    (Some (OfFolder sample_shared_A)) = Next
  ∧ hasPermission_middleware (Some "manage")
      (ReqUser.mk (Some 11%positive) (Some "user"))
      (Some (OfFolder sample_shared_A))
    = Answer (Json 403 "You do not have permission to perform this action").
Proof.
  split.
  - destruct (hasPermission_middleware_agrees "edit" (Some "user") 11)
      as (H1 & _); [discriminate|discriminate|].
    apply H1. reflexivity.
  - destruct (hasPermission_middleware_agrees "manage" (Some "user") 11)
      as (H1 & H2 & _); [discriminate|discriminate|].
    apply H2. intros Hnext. apply H1 in Hnext. discriminate Hnext.
Defined.

(** X20. The rate limiter, one window. Starting from a cache that does not
    know the address, serve requests of it at the times [t0 :: later],
    none of them more than [windowMs] after [t0]: the first request goes
    through, and the request in position [k] (counting the first as 1)
    goes through exactly when [k] is at most [max]; every request beyond
    that is refused, and refused requests are counted too. A request that
    comes more than [windowMs] after [t0] opens a new window. Requests of
    one address leave the entries of the others alone. *)
Theorem rateLimiter_window windowMs max ipCache ip t0 later :
  ipCache !! ip = None →
  (∀ t, t ∈ later → (t - t0 ≤ windowMs)%Z) →
  (∀ k, k < length (t0 :: later) →
        serve windowMs max ipCache ip (t0 :: later) !! k
        = Some (bool_decide (k = 0 ∨ (Z.of_nat k + 1 ≤ max)%Z)))
  ∧ (∀ cache entry t,
       cache !! ip = Some entry →
       (t - RateEntry.firstRequest entry > windowMs)%Z →
       (rateLimiter windowMs max cache ip t).1 !! ip
       = Some (RateEntry.mk 1 t)
       ∧ ((rateLimiter windowMs max cache ip t).2 = None ↔ (1 ≤ max)%Z))
  ∧ (∀ cache other t,
       other ≠ ip →
       (rateLimiter windowMs max cache other t).1 !! ip = cache !! ip).
Proof.
  intros Hnew Hwin.
  assert (∀ ts cache c,
            cache !! ip = Some (RateEntry.mk c t0) →
            (∀ t, t ∈ ts → (t - t0 ≤ windowMs)%Z) →
            ∀ k, k < length ts →
              serve windowMs max cache ip ts !! k
              = Some (bool_decide (c + Z.of_nat k + 1 ≤ max)%Z)) as Hrun.
  { induction ts as [|t ts IH]; intros cache c Hc Hts k Hk;
      [cbn in Hk; lia|].
    assert (t - t0 ≤ windowMs)%Z as Ht by (apply Hts; by left).
    cbn [serve]. unfold rateLimiter. rewrite Hc. cbn [RateEntry.firstRequest
      RateEntry.count].
    rewrite !(decide_False (P := (t - t0 > windowMs)%Z)) by lia.
    cbn [RateEntry.count].
    destruct k as [|k].
    - destruct (decide (c + 1 > max)%Z); cbn.
      + by rewrite bool_decide_eq_false_2 by lia.
      + by rewrite bool_decide_eq_true_2 by lia.
    - assert (serve windowMs max
                (<[ip := RateEntry.mk (c + 1) t0]> cache) ip ts !! k
              = Some (bool_decide (c + 1 + Z.of_nat k + 1 ≤ max)%Z)) as Hk'.
      { apply IH; [apply lookup_insert_eq| |cbn in Hk; lia].
        intros t' Ht'. apply Hts. by right. }
      destruct (decide (c + 1 > max)%Z); cbn -[serve];
        (etrans; [exact Hk'|]); f_equal; apply bool_decide_ext; lia. }
  split; [|split].
  - intros k Hk. cbn [serve]. unfold rateLimiter. rewrite Hnew.
    destruct k as [|k]; cbn -[serve].
    + reflexivity.
    + etrans; [apply (Hrun later _ 1%Z);
                 [apply lookup_insert_eq|done|cbn in Hk; lia]|].
      f_equal. apply bool_decide_ext. lia.
  - intros cache entry t Hc Hlate. unfold rateLimiter. rewrite Hc.
    rewrite !(decide_True (P := (t - RateEntry.firstRequest entry
                                   > windowMs)%Z)) by done.
    cbn [RateEntry.count].
    destruct (decide (1 > max)%Z); cbn; rewrite lookup_insert_eq.
    + split; [done|]. split; [done|lia].
    + split; [done|]. split; [lia|done].
  - intros cache other t Hother. unfold rateLimiter.
    destruct (cache !! other); cbn; [|by rewrite lookup_insert_ne].
    destruct (decide (_ > max)%Z); cbn; by rewrite lookup_insert_ne.
Qed.

Lemma rateLimiter_window_witness :
  serve 1000 2 ∅ "10.0.0.1" [0; 10; 20; 30]%Z !! 0 = Some true
  ∧ serve 1000 2 ∅ "10.0.0.1" [0; 10; 20; 30]%Z !! 1 = Some true
  ∧ serve 1000 2 ∅ "10.0.0.1" [0; 10; 20; 30]%Z !! 2 = Some false
  ∧ serve 1000 2 ∅ "10.0.0.1" [0; 10; 20; 30]%Z !! 3 = Some false.
Proof.
  destruct (rateLimiter_window 1000 2 ∅ "10.0.0.1" 0 [10; 20; 30]%Z)
    as [H _].
  - apply lookup_empty.
  - intros t Ht.
    repeat (apply elem_of_cons in Ht as [->|Ht]; [lia|]).
    by apply elem_of_nil in Ht.
  - split; [apply (H 0); cbn; lia|].
    split; [apply (H 1); cbn; lia|].
    split; [apply (H 2); cbn; lia|apply (H 3); cbn; lia].
Defined.

(** ** Folders under a folder *)

Lemma under_None ok st root : under ok st root None → root = None.
Proof. by inversion 1. Qed.

Lemma under_rank ok st rank bound a x :
  ranked st rank bound → under ok st (Some a) x →
  ∀ d, x = Some d → rank a ≤ rank d.
Proof.
  intros Hr. induction 1 as [|d f Hd Ht Hlive IH]; intros d' Hx.
  - by injection Hx as ->.
  - injection Hx as <-.
    destruct (Folder.parent f) as [p|] eqn:Hp.
    + pose proof (ranked_parent _ _ _ _ _ _ Hr Hd Hp).
      specialize (IH p eq_refl). lia.
    + by apply under_None in Hlive.
Qed.

Lemma under_child ok st root c fc x :
  folders st !! c = Some fc → ok fc →
  Folder.parent fc = root →
  under ok st (Some c) x → under ok st root x.
Proof.
  intros Hc Ht Hp. induction 1 as [|d f Hd Htd _ IH].
  - eapply under_step; [done..|]. rewrite Hp. apply under_here.
  - by eapply under_step.
Qed.

Lemma under_split ok st root x :
  under ok st root x →
  x = root
  ∨ ∃ c fc, folders st !! c = Some fc ∧ ok fc
            ∧ Folder.parent fc = root ∧ under ok st (Some c) x.
Proof.
  induction 1 as [|d f Hd Ht Hlive IH]; [by left|]. right.
  destruct IH as [Hp|(c & fc & Hc & Htc & Hpc & Hcd)].
  - exists d, f. split; [done|]. split; [done|]. split; [done|].
    apply under_here.
  - exists c, fc. split; [done|]. split; [done|]. split; [done|].
    by eapply under_step.
Qed.

Lemma under_comparable ok st a b x :
  under ok st (Some a) x → under ok st (Some b) x →
  under ok st (Some a) (Some b) ∨ under ok st (Some b) (Some a).
Proof.
  induction 1 as [|d f Hd Ht Hlive IH]; intros Hb; [by right|].
  inversion Hb as [Heq|d' f' Hd' Ht' Hlive' Heq]; subst.
  - left. by eapply under_step.
  - rewrite Hd in Hd'. injection Hd' as <-. by apply IH.
Qed.

Lemma child_not_above ok st rank bound root c fc :
  ranked st rank bound →
  folders st !! c = Some fc → Folder.parent fc = root →
  ¬ under ok st (Some c) root.
Proof.
  intros Hr Hc Hp Hlive. destruct root as [r|].
  - pose proof (under_rank _ _ _ _ _ _ Hr Hlive r eq_refl).
    pose proof (ranked_parent _ _ _ _ _ _ Hr Hc Hp). lia.
  - by apply under_None in Hlive.
Qed.

Lemma under_Some_inv ok st a b :
  under ok st (Some a) (Some b) →
  a = b
  ∨ ∃ f, folders st !! b = Some f
         ∧ under ok st (Some a) (Folder.parent f).
Proof.
  inversion 1 as [|d f Hd Ht Hlive]; [by left|]. right. by exists f.
Qed.

Lemma child_unique ok st rank bound root c1 f1 c2 f2 x :
  ranked st rank bound →
  folders st !! c1 = Some f1 → Folder.parent f1 = root →
  folders st !! c2 = Some f2 → Folder.parent f2 = root →
  under ok st (Some c1) x → under ok st (Some c2) x → c1 = c2.
Proof.
  intros Hr Hc1 Hp1 Hc2 Hp2 H1 H2.
  destruct (under_comparable _ _ _ _ _ H1 H2) as [H|H];
    apply under_Some_inv in H as [?|(f & Hf & Hlive)]; [done| |done|].
  - rewrite Hc2 in Hf. injection Hf as <-. rewrite Hp2 in Hlive.
    by destruct (child_not_above ok _ _ _ _ _ _ Hr Hc1 Hp1).
  - rewrite Hc1 in Hf. injection Hf as <-. rewrite Hp1 in Hlive.
    by destruct (child_not_above ok _ _ _ _ _ _ Hr Hc2 Hp2).
Qed.

(** ** What [createFolder] writes *)

Lemma String_length_append (s t : string) :
  String.length (s +:+ t) = String.length s + String.length t.
Proof. induction s as [|a s IH]; simpl; [done|]. by f_equal. Qed.

Lemma append_slash_longer (s t : string) : s +:+ t +:+ "/" ≠ s +:+ t.
Proof.
  intros Heq. apply (f_equal String.length) in Heq.
  rewrite !String_length_append in Heq. cbn in Heq. lia.
Qed.

(** X23. What [createFolder] writes. Take a name that is not blank and
    not taken, and an id that is not in use. If the trimmed name has at
    most 255 characters: at root level the new folder is stored with path
    "/"; under a parent that the caller may edit, the pre-save hook
    replaces the path the controller computed by the [fullPath] of the
    parent, and the [folderCount] of the parent grows by two, once in the
    controller and once in the hook, and nothing else changes. Under a
    parent that itself has a parent the new folder satisfies the path rule
    (parent's path, parent's name, a slash); under a root-level parent it
    does not: its path is a slash and the parent's name, without the
    closing slash. If the trimmed name is longer, the save of the new
    folder is rejected and the answer is 500: nothing is written at root
    level, and under a parent the count of the parent has been raised by
    one all the same. *)
Theorem createFolder_effect st userId name newId :
  trim name ≠ "" →
  folders st !! newId = None →
  (String.length (trim name) ≤ 255 →
   (Folder_name_taken st (trim name) None userId None = false →
    createFolder st userId name None newId
    = (Json 201 "",
       with_folders
         (<[newId := Folder.mk (trim name) None "/" userId [] false None 0]>
            (folders st)) st))
   ∧ (∀ p parentFolder,
        Folder_name_taken st (trim name) (Some p) userId None = false →
        folders st !! p = Some parentFolder →
        folder_allows parentFolder userId FILE_PERMISSIONS.EDIT = true →
        ∃ st',
          createFolder st userId name (Some p) newId = (Json 201 "", st')
          ∧ folders st' !! newId
            = Some (Folder.mk (trim name) (Some p) (fullPath parentFolder)
                              userId [] false None 0)
          ∧ folders st' !! p
            = Some (Folder.set_folderCount
                      (Folder.folderCount parentFolder + 2) parentFolder)
          ∧ (∀ d, d ≠ p → d ≠ newId → folders st' !! d = folders st !! d)
          ∧ files st' = files st ∧ users st' = users st
          ∧ (is_Some (Folder.parent parentFolder) →
             path_ok st' (Folder.mk (trim name) (Some p)
                            (fullPath parentFolder) userId [] false None 0))
          ∧ (Folder.parent parentFolder = None →
             Folder.path parentFolder = "/" →
             ¬ path_ok st' (Folder.mk (trim name) (Some p)
                              (fullPath parentFolder) userId [] false None
                              0))))
  ∧ (255 < String.length (trim name) →
     (Folder_name_taken st (trim name) None userId None = false →
      createFolder st userId name None newId
      = (Json 500 "Error creating folder", st))
     ∧ (∀ p parentFolder,
          Folder_name_taken st (trim name) (Some p) userId None = false →
          folders st !! p = Some parentFolder →
          folder_allows parentFolder userId FILE_PERMISSIONS.EDIT = true →
          createFolder st userId name (Some p) newId
          = (Json 500 "Error creating folder",
             with_folders
               (<[p := Folder.set_folderCount
                         (Folder.folderCount parentFolder + 1)
                         parentFolder]> (folders st)) st))).
Proof.
  intros Hname Hfresh. split.
  - intros Hlen.
    assert (∀ parent path,
              Folder_validate
                (Folder.set_path path
                   (Folder.mk (trim name) parent "/" userId [] false None 0))
              = true) as Hvalid.
    { intros parent path. unfold Folder_validate. cbn.
      by apply bool_decide_eq_true_2. }
    split.
    + intros Hfree. unfold createFolder.
      rewrite decide_False by done. rewrite Hfree, Hvalid. done.
    + intros p parentFolder Hfree Hp Hallow.
      assert (p ≠ newId) as Hne by (intros ->; congruence).
      unfold createFolder. rewrite decide_False by done.
      rewrite Hfree, Hp, Hallow. cbn -[Folder_save Folder_validate].
      rewrite Folder_save_existing by done. rewrite Hvalid.
      cbn -[Folder_save].
      unfold Folder_save, Folder_pre_save. cbn. rewrite lookup_insert_eq.
      cbn.
      eexists. split; [done|]. cbn. rewrite lookup_insert_eq.
      assert (fullPath
                (Folder.set_folderCount (Folder.folderCount parentFolder + 1)
                   parentFolder) = fullPath parentFolder) as Hfull by done.
      split; [by rewrite Hfull|].
      assert (newId ≠ p) as Hne' by done.
      split.
      { rewrite (lookup_insert_ne _ newId p) by done.
        rewrite lookup_alter_eq, lookup_insert_eq. cbn.
        unfold Folder.set_folderCount. cbn. do 2 f_equal. lia. }
      split.
      { intros d Hd Hd'.
        rewrite (lookup_insert_ne _ newId d) by done.
        rewrite lookup_alter_ne by done. by rewrite lookup_insert_ne. }
      split; [done|]. split; [done|]. unfold path_ok. cbn.
      rewrite (lookup_insert_ne _ newId p) by done.
      rewrite lookup_alter_eq, lookup_insert_eq. cbn.
      split.
      * intros [gp Hgp]. unfold fullPath. by rewrite Hgp.
      * intros Hroot Hpath. unfold fullPath. rewrite Hroot, Hpath.
        intros Heq.
        by apply (append_slash_longer "/" (Folder.name parentFolder)).
  - intros Hlen.
    assert (∀ parent path,
              Folder_validate
                (Folder.set_path path
                   (Folder.mk (trim name) parent "/" userId [] false None 0))
              = false) as Hvalid.
    { intros parent path. unfold Folder_validate. cbn.
      apply bool_decide_eq_false_2. lia. }
    split.
    + intros Hfree. unfold createFolder.
      rewrite decide_False by done. rewrite Hfree, Hvalid. done.
    + intros p parentFolder Hfree Hp Hallow.
      unfold createFolder. rewrite decide_False by done.
      rewrite Hfree, Hp, Hallow. cbn -[Folder_save Folder_validate].
      rewrite Folder_save_existing by done. by rewrite Hvalid.
Qed.

Lemma createFolder_effect_witness :
  ∃ st',
    createFolder sample_tree 10 "B" (Some 1%positive) 3 = (Json 201 "", st')
    ∧ folders st' !! 3%positive
      = Some (Folder.mk "B" (Some 1%positive) "/A" 10 [] false None 0)
    ∧ folders st' !! 1%positive = Some (Folder.set_folderCount 3 sample_A)
    ∧ ¬ path_ok st' (Folder.mk "B" (Some 1%positive) "/A" 10 [] false None 0).
Proof.
  destruct (createFolder_effect sample_tree 10 "B" 3) as [H _].
  - discriminate.
  - reflexivity.
  - destruct H as [_ H]; [vm_compute; lia|].
    destruct (H 1%positive sample_A)
      as (st' & H1 & H2 & H3 & _ & _ & _ & _ & H8).
    + apply (bool_decide_unpack _). vm_compute. reflexivity.
    + reflexivity.
    + reflexivity.
    + exists st'. split; [exact H1|]. split; [exact H2|].
      split; [exact H3|]. apply H8; reflexivity.
Defined.

(** ** A move changes nothing but the counters *)

(** X24. [moveFolder] into a folder. Let the caller hold edit on the
    folder and on the destination, the destination be neither the folder
    nor one of its descendants, and the name be free there. If the
    destination is not already the parent of the folder, the call adjusts
    the [folderCount] of the old and of the new parent and then fails: the
    save of the folder with its new parent is rejected in the pre-save hook
    and the answer is 500, the folder keeping its parent and its path. If
    the destination is the parent already, the call answers 200, rewrites
    the path of the folder and keeps the shape of the tree. *)
Theorem moveFolder_into_folder st userId id folder pid newParent rank
    bound :
  folders st !! id = Some folder →
  folder_allows folder userId FILE_PERMISSIONS.EDIT = true →
  folders st !! pid = Some newParent →
  folder_allows newParent userId FILE_PERMISSIONS.EDIT = true →
  id ≠ pid →
  ¬ descendant_of st id pid →
  Folder_name_taken st (Folder.name folder) (Some pid) (Folder.owner folder)
                    (Some id) = false →
  ranked st rank bound →
  ∃ n, ∀ fuel, n ≤ fuel →
    (Folder.parent folder ≠ Some pid →
     ∃ st',
       moveFolder fuel st userId id (Some pid)
       = Some (Json 500 "Error moving folder", st')
       ∧ folders st' !! id = Some folder
       ∧ folders st' !! pid
         = Some (Folder.set_folderCount (Folder.folderCount newParent + 1)
                                        newParent)
       ∧ (∀ op, Folder.parent folder = Some op →
                folders st' !! op = one_less <$> folders st !! op)
       ∧ (∀ d, d ≠ pid → Folder.parent folder ≠ Some d →
               folders st' !! d = folders st !! d)
       ∧ files st' = files st ∧ users st' = users st)
    ∧ (Folder.parent folder = Some pid →
       ∃ st',
         moveFolder fuel st userId id (Some pid)
         = Some (Json 200 "Folder moved successfully", st')
         ∧ folders st' !! id
           = Some (Folder.set_path
                     (Folder.path newParent +:+ Folder.name newParent
                      +:+ "/") folder)
         ∧ same_shape st st').
Proof.
  intros Hid Hallow Hpid Hallow' Hne Hnd Hfree Hr.
  exists (max (S (rank pid)) (S (bound - rank id))). intros fuel Hfuel.
  assert (isDescendantFolder fuel st id (Some pid) = Some false) as Hwalk.
  { destruct (isDescendantFolder_returns rank bound st id fuel Hr pid)
      as [[] Hrun]; [lia| |done].
    by apply isDescendantFolder_true_sound in Hrun. }
  split.
  - intros Hpar. unfold moveFolder.
    rewrite Hid, Hallow, Hpid, Hallow'. cbn -[Folder_save].
    rewrite decide_False by done. rewrite Hwalk, Hfree.
    rewrite (decide_False (P := Folder.parent folder = Some pid)) by done.
    rewrite Folder_save_parent_changed by done.
    eexists. split; [done|].
    assert (∀ op, Folder.parent folder = Some op → op ≠ id) as Hop.
    { intros op Hp ->. pose proof (ranked_parent _ _ _ _ _ _ Hr Hid Hp). lia. }
    destruct (Folder.parent folder) as [op|] eqn:Hp.
    + rewrite decide_False by congruence. cbn.
      assert (op ≠ pid) as Hopp by congruence.
      assert (op ≠ id) as Hopi by by apply Hop.
      assert (pid ≠ id) as Hpi by done.
      assert (pid ≠ op) as Hpo by done.
      split; [by rewrite !lookup_alter_ne by done|].
      split.
      { rewrite lookup_alter_eq, lookup_alter_ne, Hpid by done. done. }
      split.
      { intros op' [= <-]. rewrite lookup_alter_ne by done.
        rewrite lookup_alter_eq. destruct (folders st !! op); [|done]. cbn.
        unfold one_less. by rewrite <- Z.add_opp_r. }
      split; [|done]. intros d Hd Hd'.
      rewrite lookup_alter_ne by done. rewrite lookup_alter_ne; [done|].
      congruence.
    + cbn. assert (pid ≠ id) as Hpi by done.
      split; [by rewrite lookup_alter_ne|].
      split; [by rewrite lookup_alter_eq, Hpid|].
      split; [done|]. split; [|done]. intros d Hd _.
      by rewrite lookup_alter_ne.
  - intros Hpar. unfold moveFolder.
    rewrite Hid, Hallow, Hpid, Hallow'. cbn -[Folder_save].
    rewrite decide_False by done. rewrite Hwalk, Hfree, Hpar.
    rewrite !decide_True by done.
    assert (Folder.set_parent (Some pid) folder = folder) as ->.
    { destruct folder. cbn in Hpar. by subst. }
    rewrite Folder_save_existing by done.
    set (st2 := with_folders _ st).
    assert (same_shape st st2) as Hst2.
    { split; [|done]. intros d. cbn. destruct (decide (d = id)) as [->|Hd].
      - by rewrite lookup_insert_eq, Hid.
      - by rewrite lookup_insert_ne. }
    destruct (updateDescendantPaths_returns rank bound fuel st2 id
                (Folder.path newParent +:+ Folder.name newParent +:+ "/"))
      as (st3 & -> & Hst3 & Hframe); [by eapply ranked_same_shape|lia|].
    eexists. split; [done|]. split.
    + rewrite Hframe by done. apply lookup_insert_eq.
    + by eapply same_shape_trans.
Qed.

Lemma moveFolder_into_folder_witness :
  ∃ n, ∀ fuel, n ≤ fuel →
    ∃ st',
      moveFolder fuel sample_deep 10 3 (Some 1%positive)
      = Some (Json 500 "Error moving folder", st')
      ∧ folders st' !! 3%positive = folders sample_deep !! 3%positive
      ∧ Folder.folderCount <$> folders st' !! 1%positive = Some 2%Z
      ∧ Folder.folderCount <$> folders st' !! 2%positive = Some 0%Z.
Proof.
  assert (ranked sample_deep Pos.to_nat 3) as Hr.
  { apply (bool_decide_unpack (ranked sample_deep Pos.to_nat 3)).
    vm_compute. reflexivity. }
  destruct (moveFolder_into_folder sample_deep 10 3
              (Folder.mk "D" (Some 2%positive) "/A/C/" 10 [] false None 0)
              1 sample_A Pos.to_nat 3) as [n Hn].
  - reflexivity.
  - reflexivity.
  - reflexivity.
  - reflexivity.
  - discriminate.
  - intros Hdesc. apply (descendant_of_rank _ Pos.to_nat 3) in Hdesc.
    + cbn in Hdesc. lia.
    + exact Hr.
  - apply (bool_decide_unpack _). vm_compute. reflexivity.
  - exact Hr.
  - exists n. intros fuel Hfuel. destruct (Hn fuel Hfuel) as [Hfail _].
    destruct Hfail as (st' & H1 & H2 & H3 & H4 & _); [discriminate|].
    exists st'. split; [exact H1|]. split; [exact H2|].
    split; [by rewrite H3|]. by rewrite (H4 2%positive eq_refl).
Defined.

(** ** The folder tree of a user *)

Lemma elem_of_visible_children st u parent c fc :
  (c, fc) ∈ filter (λ folder : Id * Folder.t,
                      Folder.parent folder.2 = parent)
                   (Folder_find_visible st u)
  ↔ folders st !! c = Some fc ∧ visible_to u fc ∧ Folder.parent fc = parent.
Proof.
  unfold Folder_find_visible, visible_to.
  rewrite !list_elem_of_filter, elem_of_map_to_list. cbn. tauto.
Qed.

Lemma buildTree_unfold fuel vis parent :
  buildTree (S fuel) vis parent
  = mapM (buildNode fuel vis)
         (filter (λ folder : Id * Folder.t, Folder.parent folder.2 = parent)
                 vis).
Proof. reflexivity. Qed.

Lemma mapM_cons_option {A B} (f : A → option B) (x : A) (l : list A) :
  mapM f (x :: l)
  = match f x with
    | Some y =>
      match mapM f l with
      | Some k => Some (y :: k)
      | None => None
      end
    | None => None
    end.
Proof. cbn. destruct (f x); [|done]. cbn. by destruct (mapM f l). Qed.

Lemma tree_ids_cons t trees :
  tree_ids (t :: trees) = node_ids t ++ tree_ids trees.
Proof. reflexivity. Qed.

Lemma mapM_buildNode fuel st u rank bound parent :
  ranked st rank bound →
  (∀ c fc, folders st !! c = Some fc → visible_to u fc →
           Folder.parent fc = parent →
     ∃ trees,
       buildTree fuel (Folder_find_visible st u) (Some c) = Some trees
       ∧ NoDup (tree_ids trees)
       ∧ ∀ d, d ∈ tree_ids trees
              ↔ ∃ c' fc', folders st !! c' = Some fc' ∧ visible_to u fc'
                          ∧ Folder.parent fc' = Some c
                          ∧ under (visible_to u) st (Some c') (Some d)) →
  ∀ kids,
    (∀ k, k ∈ kids →
          folders st !! k.1 = Some k.2 ∧ visible_to u k.2
          ∧ Folder.parent k.2 = parent) →
    NoDup kids.*1 →
    ∃ trees,
      mapM (buildNode fuel (Folder_find_visible st u)) kids = Some trees
      ∧ NoDup (tree_ids trees)
      ∧ ∀ d, d ∈ tree_ids trees
             ↔ ∃ k, k ∈ kids ∧ under (visible_to u) st (Some k.1) (Some d).
Proof.
  intros Hr Hkid. induction kids as [|[c fc] kids IH]; intros Hsub Hnd.
  - exists []. split; [done|]. split; [apply NoDup_nil_2|]. intros d.
    split; [by intros ?%elem_of_nil|]. intros (k & Hk & _).
    by apply elem_of_nil in Hk.
  - destruct (Hsub (c, fc)) as (Hc & Hvis & Hpar); [by left|].
    cbn in Hc, Hvis, Hpar.
    destruct (Hkid c fc Hc Hvis Hpar) as (children & Hrun & Hndc & Hin).
    rewrite fmap_cons in Hnd. apply NoDup_cons in Hnd as [Hcnew Hnd].
    destruct IH as (trees & Hrest & Hndt & Hint); [|done|].
    { intros k Hk. apply Hsub. by right. }
    exists (Node c (Folder.name fc) (Folder.parent fc) (Folder.path fc)
                 children :: trees).
    split.
    { rewrite mapM_cons_option, Hrest. unfold buildNode.
      cbn [fst snd]. by rewrite Hrun. }
    assert (∀ d, d ∈ node_ids (Node c (Folder.name fc) (Folder.parent fc)
                                    (Folder.path fc) children)
                 ↔ under (visible_to u) st (Some c) (Some d)) as Hnode.
    { intros d. cbn. fold (tree_ids children).
      rewrite elem_of_cons, Hin. split.
      - intros [->|(c' & fc' & Hc' & Hv' & Hp' & Hd)]; [apply under_here|].
        by eapply under_child.
      - intros Hd. apply under_split in Hd
          as [[= ->]|(c' & fc' & Hc' & Hv' & Hp' & Hd)]; [by left|].
        right. by exists c', fc'. }
    split.
    + rewrite tree_ids_cons. apply NoDup_app. split.
      * cbn. fold (tree_ids children). apply NoDup_cons. split; [|done].
        intros Hcin. apply Hin in Hcin
          as (c' & fc' & Hc' & Hv' & Hp' & Hd).
        by destruct (child_not_above (visible_to u) _ _ _ _ _ _ Hr Hc' Hp').
      * split; [|done]. intros d Hd Hdt.
        apply Hnode in Hd. apply Hint in Hdt as ([k fk] & Hk & Hdk).
        cbn in Hdk.
        destruct (Hsub (k, fk)) as (Hfk & _ & Hpk); [by right|].
        cbn in Hfk, Hpk.
        assert (c = k) as ->
          by by eapply (child_unique (visible_to u) st rank bound parent
                          c fc k fk).
        apply Hcnew. apply list_elem_of_fmap. by exists (k, fk).
    + intros d. rewrite tree_ids_cons, elem_of_app, Hnode, Hint. split.
      * intros [Hd|(k & Hk & Hd)].
        -- exists (c, fc). split; [by left|done].
        -- exists k. split; [by right|done].
      * intros (k & Hk & Hd).
        apply elem_of_cons in Hk as [->|Hk]; [by left|].
        right. by exists k.
Qed.

(** X27. What the folder tree shows. On an acyclic folder tree
    [getFolderTree] returns once the fuel covers the depth of the tree.
    Its answer holds each folder at most once, and it holds exactly the
    folders that the user owns or is a grantee of, that are not in the
    trash, and whose ancestors up to the root level all are such folders
    too: a folder shared with the user inside a folder that the user
    cannot see is not shown. *)
Theorem getFolderTree_shows st userId rank bound :
  ranked st rank bound →
  ∃ n, ∀ fuel, n ≤ fuel →
    ∃ tree,
      getFolderTree fuel st userId = Some tree
      ∧ NoDup (tree_ids tree)
      ∧ ∀ d, d ∈ tree_ids tree
             ↔ under (visible_to userId) st None (Some d).
Proof.
  intros Hr. exists (depth_left rank bound None). intros fuel Hfuel.
  assert (∀ parent,
            depth_left rank bound parent ≤ fuel →
            ∃ trees,
              buildTree fuel (Folder_find_visible st userId) parent
              = Some trees
              ∧ NoDup (tree_ids trees)
              ∧ ∀ d, d ∈ tree_ids trees
                     ↔ ∃ c fc, folders st !! c = Some fc
                               ∧ visible_to userId fc
                               ∧ Folder.parent fc = parent
                               ∧ under (visible_to userId) st (Some c)
                                       (Some d)) as Hbuild.
  { clear Hfuel. induction fuel as [|fuel IH]; intros parent Hfuel.
    { destruct parent; cbn in Hfuel; lia. }
    rewrite buildTree_unfold.
    destruct (mapM_buildNode fuel st userId rank bound parent Hr) with
      (kids := filter (λ folder : Id * Folder.t,
                         Folder.parent folder.2 = parent)
                      (Folder_find_visible st userId))
      as (trees & Hrun & Hnd & Hin).
    - intros c fc Hc Hvis Hpar. apply IH.
      destruct (Hr c fc Hc) as [Hle Hlt]. rewrite Hpar in Hlt.
      destruct parent as [F|]; cbn in *; lia.
    - intros [k fk] Hk. by apply elem_of_visible_children in Hk.
    - apply NoDup_fmap_fst.
      + intros i f1 f2 H1 H2.
        apply elem_of_visible_children in H1 as (H1 & _).
        apply elem_of_visible_children in H2 as (H2 & _). congruence.
      + apply NoDup_filter, NoDup_filter, NoDup_map_to_list.
    - exists trees. split; [done|]. split; [done|]. intros d.
      rewrite Hin. split.
      + intros ([k fk] & Hk & Hd).
        apply elem_of_visible_children in Hk as (Hk & Hv & Hp).
        by exists k, fk.
      + intros (c & fc & Hc & Hv & Hp & Hd). exists (c, fc).
        split; [|done]. by apply elem_of_visible_children. }
  destruct (Hbuild None Hfuel) as (tree & Hrun & Hnd & Hin).
  exists tree. split; [done|]. split; [done|]. intros d. rewrite Hin. split.
  - intros (c & fc & Hc & Hv & Hp & Hd). by eapply under_child.
  - intros Hd. by apply under_split in Hd as [?|?].
Qed.

Lemma getFolderTree_shows_witness :
  (∃ f, folders sample_deep_shared !! 3%positive = Some f
        ∧ Folder_hasPermission f 11 FILE_PERMISSIONS.VIEW = true)
  ∧ getFolderTree 5 sample_deep_shared 11 = Some []
  ∧ ∃ n, ∀ fuel, n ≤ fuel →
      ∃ tree,
        getFolderTree fuel sample_deep_shared 10 = Some tree
        ∧ NoDup (tree_ids tree)
        ∧ ∀ d, d ∈ tree_ids tree
               ↔ under (visible_to 10) sample_deep_shared None (Some d).
Proof.
  split; [eexists; split; reflexivity|]. split; [by vm_compute|].
  apply (getFolderTree_shows sample_deep_shared 10 Pos.to_nat 3).
  apply (bool_decide_unpack (ranked sample_deep_shared Pos.to_nat 3)).
  vm_compute. reflexivity.
Defined.


(** ** Failed sign-ins and the lock *)

Lemma failed_logins_snoc accounts userId attempts attempt :
  failed_logins accounts userId (attempts ++ [attempt])
  = handleFailedLogin (failed_logins accounts userId attempts) userId
      attempt.1.1 attempt.1.2 attempt.2.
Proof.
  revert accounts. induction attempts as [|a attempts IH]; intros accounts.
  - done.
  - cbn. apply IH.
Qed.

Lemma handleFailedLogin_other accounts userId ip userAgent now other :
  other ≠ userId →
  handleFailedLogin accounts userId ip userAgent now !! other
  = accounts !! other.
Proof.
  intros Hne. unfold handleFailedLogin.
  destruct (accounts !! userId); [|done].
  by apply lookup_insert_ne.
Qed.

Lemma failed_logins_other accounts userId attempts other :
  other ≠ userId →
  failed_logins accounts userId attempts !! other = accounts !! other.
Proof.
  intros Hne. revert accounts.
  induction attempts as [|a attempts IH]; intros accounts; [done|].
  cbn. rewrite IH. by apply handleFailedLogin_other.
Qed.

Lemma failed_logins_counts accounts userId user attempts :
  accounts !! userId = Some user →
  ∃ user',
    failed_logins accounts userId attempts !! userId = Some user'
    ∧ Account.loginAttempts user'
      = (Account.loginAttempts user + Z.of_nat (length attempts))%Z
    ∧ Account.failedLoginAttempts user'
      = Account.failedLoginAttempts user ++ (failed_entry <$> attempts)
    ∧ Account.password user' = Account.password user
    ∧ Account.passwordChangedAt user' = Account.passwordChangedAt user
    ∧ Account.role user' = Account.role user
    ∧ ((Account.loginAttempts user + Z.of_nat (length attempts) < 5)%Z →
       Account.lockUntil user' = Account.lockUntil user
       ∧ Account.status user' = Account.status user).
Proof.
  intros Hu. induction attempts as [|a attempts IH] using rev_ind.
  - exists user. cbn. rewrite Z.add_0_r, app_nil_r. by repeat split.
  - destruct IH as (u & Hlk & Hn & Hf & Hp & Hc & Hr & Hlow).
    rewrite failed_logins_snoc. unfold handleFailedLogin at 1.
    rewrite Hlk. rewrite lookup_insert_eq. eexists. split; [done|].
    rewrite length_app, fmap_app, Nat2Z.inj_add. cbn [length fmap list_fmap].
    destruct (decide (Account.loginAttempts u + 1 >= 5)%Z) as [Hge|Hlt];
      cbn [Account.loginAttempts Account.failedLoginAttempts
           Account.password Account.passwordChangedAt Account.role
           Account.lockUntil Account.status].
    + split; [lia|]. split; [by rewrite Hf, <- app_assoc|].
      split; [done|]. split; [done|]. split; [done|]. intros. lia.
    + split; [lia|]. split; [by rewrite Hf, <- app_assoc|].
      split; [done|]. split; [done|]. split; [done|]. intros.
      apply Hlow. lia.
Qed.

(** X28. Failed sign-ins and the lock. After a run of failed sign-ins of
    a known user the counter has grown by the length of the run and every
    attempt is on record, in order; password, role and the date of the
    last password change are as before. While the counter stays below
    five, lock and status are as before. Once it is five or more, the
    account is suspended and [isAccountLocked] answers true exactly until
    thirty minutes after the last failure: the fifth failure locks, and
    every later one locks anew from its own time, also when the earlier
    lock has run out, since a failure never resets the counter. The other
    accounts are left alone. *)
Theorem handleFailedLogin_locks accounts userId user attempts last :
  accounts !! userId = Some user →
  let accounts' := failed_logins accounts userId (attempts ++ [last]) in
  let total :=
    (Account.loginAttempts user + Z.of_nat (length attempts) + 1)%Z in
  (∃ user',
     accounts' !! userId = Some user'
     ∧ Account.loginAttempts user' = total
     ∧ Account.failedLoginAttempts user'
       = Account.failedLoginAttempts user
         ++ (failed_entry <$> attempts ++ [last])
     ∧ Account.password user' = Account.password user
     ∧ Account.passwordChangedAt user' = Account.passwordChangedAt user
     ∧ Account.role user' = Account.role user
     ∧ ((total < 5)%Z →
        Account.lockUntil user' = Account.lockUntil user
        ∧ Account.status user' = Account.status user)
     ∧ ((5 ≤ total)%Z →
        Account.status user' = STATUS.SUSPENDED
        ∧ ∀ now, isAccountLocked accounts' userId now
                 = bool_decide (now < last.2 + 1800000)%Z))
  ∧ (∀ other, other ≠ userId → accounts' !! other = accounts !! other).
Proof.
  intros Hu accounts' total. split.
  2:{ intros other Hne. by apply failed_logins_other. }
  destruct (failed_logins_counts accounts userId user (attempts ++ [last]) Hu)
    as (user' & Hlk & Hn & Hf & Hp & Hc & Hr & Hlow).
  rewrite length_app, Nat2Z.inj_add in Hn, Hlow. cbn [length] in Hn, Hlow.
  exists user'. split; [done|]. split; [unfold total; lia|].
  split; [done|]. split; [done|]. split; [done|]. split; [done|].
  split; [intros; apply Hlow; unfold total in *; lia|].
  intros Hge.
  destruct (failed_logins_counts accounts userId user attempts Hu)
    as (u & Hlku & Hnu & _).
  unfold isAccountLocked. subst accounts'.
  rewrite failed_logins_snoc in Hlk |- *. unfold handleFailedLogin in Hlk |- *.
  rewrite Hlku in Hlk |- *. rewrite lookup_insert_eq in Hlk |- *.
  rewrite decide_True in Hlk |- * by (unfold total in Hge; lia).
  injection Hlk as <-. cbn. split; [done|]. intros now.
  apply bool_decide_ext. lia.
Qed.

Lemma handleFailedLogin_locks_witness :
  isAccountLocked
    (failed_logins sample_accounts 7
       (sample_failures ++ [("10.0.0.1", "curl", 500%Z)]))
    7 1800499
  = true.
Proof.
  destruct (handleFailedLogin_locks sample_accounts 7 sample_account
              sample_failures ("10.0.0.1", "curl", 500%Z))
    as [(user' & _ & _ & _ & _ & _ & _ & _ & Hlock) _].
  - reflexivity.
  - destruct Hlock as [_ Hlock]; [cbn; lia|].
    etrans; [apply Hlock|]. reflexivity.
Defined.


(** ** Tokens and a change of password *)

Lemma protect_decoded authorization cookie verify accounts token id iat
    currentUser :
  protect_token authorization cookie = Some token →
  token ≠ "" →
  verify token = Decoded id iat →
  accounts !! id = Some currentUser →
  protect false authorization cookie verify accounts
  = if changedPasswordAfter currentUser iat then
      Refused
        (Json 401 "User recently changed password! Please log in again.")
    else Granted (ReqUser.mk (Some id) (Some (Account.role currentUser))).
Proof.
  intros Htoken Hne Hverify Hid. unfold protect.
  rewrite Htoken. apply String.eqb_neq in Hne. rewrite Hne.
  by rewrite Hverify, Hid.
Qed.

(** X29. Which tokens survive a change of password. A user who is not new
    saves a new password at time [T] (milliseconds, not before second 1),
    and the pre-save hook stamps the change one second early. A request of
    that user with a token that verifies is then let through by [protect]
    exactly when the token's [iat] (seconds) is at least [T / 1000 - 1],
    and is answered 401 otherwise. So, for a token stamped with the second
    of its signing time [s]: every token signed at or after the change
    goes through; every token signed two seconds or more before it is
    refused; and every token signed within the second before the change
    still goes through. *)
Theorem tokens_after_password_change authorization cookie verify accounts
    token id iat this this' hashed T :
  protect_token authorization cookie = Some token →
  token ≠ "" →
  verify token = Decoded id iat →
  User_pre_save false true (Some hashed) T this = Some this' →
  accounts !! id = Some this' →
  (1000 ≤ T)%Z →
  let outcome := protect false authorization cookie verify accounts in
  let granted :=
    Granted (ReqUser.mk (Some id) (Some (Account.role this))) in
  (outcome = granted ↔ (T `div` 1000 - 1 ≤ iat)%Z)
  ∧ (outcome ≠ granted →
     outcome
     = Refused
         (Json 401 "User recently changed password! Please log in again."))
  ∧ (∀ s, iat = (s `div` 1000)%Z →
       ((T - 1000 ≤ s)%Z → outcome = granted)
       ∧ ((s + 2000 ≤ T)%Z → outcome ≠ granted)).
Proof.
  intros Htoken Hne Hverify Hsave Hid HT outcome granted.
  cbn in Hsave. injection Hsave as <-.
  assert (outcome
          = if bool_decide (T `div` 1000 - 1 ≤ iat)%Z then granted
            else Refused
                   (Json 401
                      "User recently changed password! Please log in again."))
    as Hout.
  { unfold outcome.
    rewrite (protect_decoded _ _ _ _ token id iat _ Htoken Hne Hverify Hid).
    unfold changedPasswordAfter. cbn [Account.passwordChangedAt Account.role].
    rewrite Z.quot_div_nonneg by lia.
    replace (T - 1000)%Z with (T + (-1) * 1000)%Z by lia.
    rewrite Z.div_add by lia.
    repeat case_bool_decide; try done; lia. }
  assert (outcome = granted ↔ (T `div` 1000 - 1 ≤ iat)%Z) as Hiff.
  { rewrite Hout. case_bool_decide; split; intros; try done; lia. }
  split; [done|]. split.
  - rewrite Hout. by case_bool_decide.
  - intros s ->. split.
    + intros Hs. apply Hiff.
      assert ((T - 1000) `div` 1000 ≤ s `div` 1000)%Z as Hle
        by (apply Z.div_le_mono; lia).
      replace (T - 1000)%Z with (T + (-1) * 1000)%Z in Hle by lia.
      rewrite Z.div_add in Hle by lia. lia.
    + intros Hs Hnext. apply Hiff in Hnext.
      assert ((s + 2000) `div` 1000 ≤ T `div` 1000)%Z as Hle
        by (apply Z.div_le_mono; lia).
      replace (s + 2000)%Z with (s + 2 * 1000)%Z in Hle by lia.
      rewrite Z.div_add in Hle by lia. lia.
Qed.

Lemma tokens_after_password_change_witness :
  protect false (Some "Bearer abc") None (λ _, Decoded 7 59)
    {[ 7%positive :=
         Account.mk "new" (Some 59500%Z) "user" "active" 0 None [] ]}
  = Granted (ReqUser.mk (Some 7%positive) (Some "user")).
Proof.
  apply (tokens_after_password_change (Some "Bearer abc") None
           (λ _, Decoded 7 59) _ "abc" 7 59 sample_account
           (Account.mk "new" (Some 59500%Z) "user" "active" 0 None [])
           "new" 60500);
    [reflexivity|discriminate|reflexivity|reflexivity|reflexivity|lia|].
  vm_compute. discriminate.
Defined.


(** ** The administrators' routes *)

(** X30. Who reaches the routes below [router.use(hasPermission('admin'))].
    Outside development mode a request gets there exactly when it brings a
    token, in the Authorization header or the cookie, that verifies, whose
    user exists, has not changed the password after the token was issued,
    and has the role admin. In development mode [protect] lets every
    request in as the development user, but that user has no role, no
    document is attached to the request, and the routes answer 403 to
    every request. *)
Theorem admin_routes_gate authorization cookie verify accounts :
  (admin_routes false authorization cookie verify accounts = Next
   ↔ ∃ token id iat user,
       protect_token authorization cookie = Some token
       ∧ token ≠ ""
       ∧ verify token = Decoded id iat
       ∧ accounts !! id = Some user
       ∧ changedPasswordAfter user iat = false
       ∧ Account.role user = "admin")
  ∧ protect true authorization cookie verify accounts = Granted dev_user
  ∧ admin_routes true authorization cookie verify accounts
    = Answer (Json 403 "You do not have permission to perform this action").
Proof.
  split; [|done].
  unfold admin_routes, protect. split.
  - destruct (protect_token authorization cookie) as [token|]; [|done].
    destruct (String.eqb token "") eqn:Hne; [done|].
    apply String.eqb_neq in Hne.
    destruct (verify token) as [id iat| | |] eqn:Hverify; try done.
    destruct (accounts !! id) as [user|] eqn:Hid; [|done].
    destruct (changedPasswordAfter user iat) eqn:Hchanged; [done|].
    unfold hasPermission_middleware. cbn [ReqUser.role].
    rewrite decide_False by done.
    destruct (decide (Some (Account.role user) = Some "admin"))
      as [Hrole|Hrole]; [|done].
    intros _. exists token, id, iat, user.
    repeat split; try done. congruence.
  - intros (token & id & iat & user & -> & Hne & Hverify & Hid & Hch & Hrole).
    apply String.eqb_neq in Hne. rewrite Hne, Hverify, Hid, Hch.
    unfold hasPermission_middleware. cbn [ReqUser.role].
    rewrite decide_False by done. rewrite decide_True; [done|].
    by rewrite Hrole.
Qed.
